(** * go-wolf: the router core, embedded and checked against its specification

    The development follows the Go sources of the repository:
    - [router/utils.go]      ([RouteUtils], [MiddlewareChain]),
    - [router/router.go]     ([Router.Handle], [Router.ServeHTTP]),
    - [router/advanced.go]   ([SetNotFoundHandler], [SetMethodNotAllowedHandler]),
    - [router/group.go]      ([Group]),
    - [pkg/response/writer.go] ([Writer]).

    Go strings are byte strings and are modelled by [string] (a list of
    8-bit characters); Go maps by [gmap]; the slice of handlers that a group
    holds by a pointer into a heap of backing arrays, other slices by lists. *)

From stdpp Require Import gmap strings list fin_maps.
From Stdlib Require Import ZArith Lia Ascii.

Local Open Scope string_scope.
Local Open Scope list_scope.

(* ===================================================================== *)
(** * Part I. The embedding                                               *)
(* ===================================================================== *)

(** ** The functions of Go's [strings] package used by the router *)

Module GoStrings.

(** [strings.HasPrefix(s, prefix)] *)
Definition HasPrefix (s prefix : string) : bool := String.prefix prefix s.

(** [s[n:]] for a string [s]. *)
Definition from (n : nat) (s : string) : string :=
  String.substring n (String.length s - n) s.

(** [s[:n]] for a string [s]. *)
Definition upto (n : nat) (s : string) : string := String.substring 0 n s.

(** [strings.HasSuffix(s, suffix)]:
    [len(s) >= len(suffix) && s[len(s)-len(suffix):] == suffix]. *)
Definition HasSuffix (s suffix : string) : bool :=
  (String.length suffix <=? String.length s)%nat
  && String.eqb (from (String.length s - String.length suffix) s) suffix.

(** [strings.TrimSuffix(s, suffix)] *)
Definition TrimSuffix (s suffix : string) : string :=
  if HasSuffix s suffix
  then upto (String.length s - String.length suffix) s
  else s.

(** [strings.Contains(s, substr)] *)
Fixpoint Contains (s substr : string) : bool :=
  String.prefix substr s
  || match s with
     | EmptyString => false
     | String _ s' => Contains s' substr
     end.

(** [strings.Split(s, sep)] for a non-empty separator: the pieces of [s]
    between the non-overlapping occurrences of [sep], scanning from the
    left.  [skip] counts the bytes of an occurrence of [sep] still to be
    stepped over. *)
Fixpoint split_from (sep : string) (skip : nat) (s : string) : list string :=
  match s with
  | EmptyString => [EmptyString]
  | String a s' =>
      match skip with
      | S k => split_from sep k s'
      | O =>
          if String.prefix sep s
          then EmptyString :: split_from sep (String.length sep - 1) s'
          else match split_from sep 0 s' with
               | piece :: pieces => String a piece :: pieces
               | [] => [String a EmptyString]
               end
      end
  end.

Definition Split (s sep : string) : list string := split_from sep 0 s.

(** [strings.Join(elems, sep)] *)
Definition Join (elems : list string) (sep : string) : string :=
  String.concat sep elems.

(** [strings.ReplaceAll(s, old, new)] for a non-empty [old]: every
    non-overlapping occurrence of [old], scanning from the left, is
    replaced by [new]. *)
Fixpoint replace_from (old new : string) (skip : nat) (s : string) : string :=
  match s with
  | EmptyString => EmptyString
  | String a s' =>
      match skip with
      | S k => replace_from old new k s'
      | O =>
          if String.prefix old s
          then new +:+ replace_from old new (String.length old - 1) s'
          else String a (replace_from old new 0 s')
      end
  end.

Definition ReplaceAll (s old new : string) : string := replace_from old new 0 s.

End GoStrings.

(** ** [router/utils.go]: [RouteUtils] *)

Module RouteUtils.
Import GoStrings.

(** The body of the [for i, part := range patternParts] loop of
    [MatchPath]; [i] is the index of the head of [patternParts] in the
    original slice.  [pathParts[i]] is in range because the caller has
    checked that both slices have the same length. *)
Fixpoint MatchPath_loop (patternParts pathParts : list string) (i : nat) : bool :=
  match patternParts with
  | [] => true
  | part :: rest =>
      if HasPrefix part ":" then
        if String.eqb (pathParts !!! i) EmptyString then false
        else MatchPath_loop rest pathParts (S i)
      else if HasPrefix part "*" then true
      else if negb (String.eqb part (pathParts !!! i)) then false
      else MatchPath_loop rest pathParts (S i)
  end.

(** [func (ru *RouteUtils) MatchPath(pattern, path string) bool] *)
Definition MatchPath (pattern path : string) : bool :=
  if String.eqb pattern path then true
  else
    let patternParts := Split pattern "/" in
    let pathParts := Split path "/" in
    if negb (length patternParts =? length pathParts)%nat then false
    else MatchPath_loop patternParts pathParts 0.

(** The loop of [ExtractParams]; the catch-all case ends it ([break]). *)
Fixpoint ExtractParams_loop (patternParts pathParts : list string) (i : nat)
    (params : gmap string string) : gmap string string :=
  match patternParts with
  | [] => params
  | part :: rest =>
      if HasPrefix part ":" then
        ExtractParams_loop rest pathParts (S i)
          (<[from 1 part := pathParts !!! i]> params)
      else if HasPrefix part "*" then
        <[from 1 part := Join (drop i pathParts) "/"]> params
      else ExtractParams_loop rest pathParts (S i) params
  end.

(** [func (ru *RouteUtils) ExtractParams(pattern, path string) map[string]string] *)
Definition ExtractParams (pattern path : string) : gmap string string :=
  let params : gmap string string := ∅ in
  let patternParts := Split pattern "/" in
  let pathParts := Split path "/" in
  if negb (length patternParts =? length pathParts)%nat then params
  else ExtractParams_loop patternParts pathParts 0 params.

(** The loop [for strings.Contains(path, "//") { path = ReplaceAll(path, "//", "/") }]
    of [NormalizePath].  Every round shortens [path], so [String.length path]
    rounds are enough (lemma [collapse_slashes_done] below). *)
Fixpoint collapse_slashes (fuel : nat) (path : string) : string :=
  match fuel with
  | O => path
  | S fuel' =>
      if Contains path "//"
      then collapse_slashes fuel' (ReplaceAll path "//" "/")
      else path
  end.

(** [func (ru *RouteUtils) NormalizePath(path string) string] *)
Definition NormalizePath (path : string) : string :=
  if String.eqb path EmptyString then "/"
  else
    let path := if negb (HasPrefix path "/") then "/" +:+ path else path in
    let path :=
      if negb (String.eqb path "/") && HasSuffix path "/"
      then TrimSuffix path "/" else path in
    collapse_slashes (String.length path) path.

End RouteUtils.

(** ** [pkg/context]: handlers and the request context *)

(** The router imports the package [pkg/context] ([Context], [HandlerFunc],
    [SetNext], [Next], [SetParams], [Param], [GetErrorHandler]); its source
    file is not among the sources.  The spec (4.E) gives its contract: the
    context owns the parameter map, the writer, the [next] continuation
    pointer and a handle to the error handler; [setNext(handler)] installs
    the continuation, [next()] invokes it and [param(name)] reads a captured
    parameter. *)
Module context.

(** A Go [error] value; [None] is [nil]. *)
Definition error := string.

(** A call received by the context's [Writer] (an [http.ResponseWriter]). *)
Inductive WriterCall :=
| CallWriteHeader (code : Z)
| CallWrite (data : string).

(** Modelled from the spec: [context.HandlerFunc], declared in the missing
    [pkg/context]; the handler contract of the spec is
    [handler(ctx) -> optional-error].  A handler is a Go function
    [func(c *Context) error].  It acts on the context only through the
    context's methods, so it is represented by the tree of the method calls
    it makes, ending in the error it returns. *)
Inductive HandlerFunc :=
| Return (err : option error)                     (* return err *)
| WriterDo (call : WriterCall) (k : HandlerFunc)   (* c.Writer.<call>; k *)
| SetNext (next : HandlerFunc) (k : HandlerFunc)   (* c.SetNext(next); k *)
| Next (k : option error → HandlerFunc)            (* err := c.Next(); k err *)
| Param (name : string) (k : string → HandlerFunc) (* v := c.Param(name); k v *).

(** Modelled from the spec: [context.Context], declared in the missing
    [pkg/context], with the fields that the router and the handlers use. *)
Record Context := mkContext {
  Params : gmap string string;
  Writer : list WriterCall;     (* the calls made on c.Writer, oldest first *)
  next : option HandlerFunc;    (* the continuation pointer; [None] is nil *)
  errorHandler : option (error → HandlerFunc);
}.

(** Modelled from the spec: [Context.SetParams] of the missing [pkg/context];
    it binds the parameters of the matched route into the context. *)
Definition SetParams (params : gmap string string) (c : Context) : Context :=
  mkContext params (Writer c) (next c) (errorHandler c).

(** Modelled from the spec: [Context.SetNext] of the missing [pkg/context];
    it installs the continuation. *)
Definition set_next (h : HandlerFunc) (c : Context) : Context :=
  mkContext (Params c) (Writer c) (Some h) (errorHandler c).

(** A call of a method of [c.Writer]. *)
Definition writer_call (call : WriterCall) (c : Context) : Context :=
  mkContext (Params c) (Writer c ++ [call]) (next c) (errorHandler c).

(** Modelled from the spec: [Context.GetErrorHandler] of the missing
    [pkg/context]; it returns the handle to the error handler, nil when
    there is none. *)
Definition GetErrorHandler (c : Context) : option (error → HandlerFunc) :=
  errorHandler c.

(** Modelled from the spec: calling a handler on a context, with
    [Context.Next] and [Context.Param] of the missing [pkg/context]:
    [next()] invokes the installed continuation, and returns nil when none
    is installed; [param(name)] reads a captured parameter, the empty string
    when there is none of that name.  A handler can call [c.Next()], which
    calls the handler stored in the context, which can call [c.Next()]
    again: the recursion is not structural, and each invocation of the
    stored continuation uses one unit of [fuel].  [None] is 'out of fuel'. *)
Fixpoint run (fuel : nat) : HandlerFunc → Context → option (option error * Context) :=
  fix call (h : HandlerFunc) (c : Context) {struct h} :=
    match h with
    | Return err => Some (err, c)
    | WriterDo w k => call k (writer_call w c)
    | SetNext nxt k => call k (set_next nxt c)
    | Param name k => call (k (default EmptyString (Params c !! name))) c
    | Next k =>
        match next c with
        | None => call (k None) c
        | Some nxt =>
            match fuel with
            | O => None
            | S fuel' =>
                match run fuel' nxt c with
                | None => None
                | Some (err, c') => call (k err) c'
                end
            end
        end
    end.

(** [c.Writer.WriteHeader(code); c.Writer.Write(body)] as a context update. *)
Definition respond (code : Z) (body : string) (c : Context) : Context :=
  writer_call (CallWrite body) (writer_call (CallWriteHeader code) c).

End context.

(** ** [router/utils.go]: [MiddlewareChain] *)

Module MiddlewareChain.
Import context.

Record MiddlewareChain := mkChain { middleware : list HandlerFunc }.

Definition NewMiddlewareChain (mws : list HandlerFunc) : MiddlewareChain :=
  mkChain mws.

Definition Add (mc : MiddlewareChain) (mws : list HandlerFunc) : MiddlewareChain :=
  mkChain (middleware mc ++ mws).

(** The function literal
    [func(c *context.Context) error { c.SetNext(next); return mw(c) }]. *)
Definition closure (mw next : HandlerFunc) : HandlerFunc := SetNext next mw.

(** The loop [for i := len(mws) - 1; i >= 0; i-- { mw := mws[i]; next :=
    result; result = closure(mw, next) }]; [n] is [i + 1].  The same loop
    builds [finalHandler] in [Router.Handle]. *)
Fixpoint chain_loop (mws : list HandlerFunc) (n : nat) (result : HandlerFunc)
    : HandlerFunc :=
  match n with
  | O => result
  | S i =>
      match mws !! i with
      | Some mw => chain_loop mws i (closure mw result)
      | None => result (* index out of range: not reached, i < len(mws) *)
      end
  end.

(** [func (mc *MiddlewareChain) Build(handler) HandlerFunc] *)
Definition Build (mc : MiddlewareChain) (handler : HandlerFunc) : HandlerFunc :=
  chain_loop (middleware mc) (length (middleware mc)) handler.

Definition Length (mc : MiddlewareChain) : nat := length (middleware mc).

End MiddlewareChain.

(** ** Middleware that calls [Next] once

    The shape of the middleware in the package's tests
    ([TestMiddlewareChain]): work, one call of [c.Next()], more work, and the
    error of [c.Next()] is returned.  The work is a sequence of calls on the
    context's writer. *)
Module Stages.
Import context MiddlewareChain.

(** [c.Writer.<call>] for each call of [calls], then [k]. *)
Definition writes (calls : list WriterCall) (k : HandlerFunc) : HandlerFunc :=
  foldr WriterDo k calls.

Definition around (stage : list WriterCall * list WriterCall) : HandlerFunc :=
  writes (fst stage) (Next (λ err, writes (snd stage) (Return err))).

(** The context after the writer has received [calls]. *)
Definition log (calls : list WriterCall) (c : Context) : Context :=
  mkContext (Params c) (Writer c ++ calls) (next c) (errorHandler c).

(** The handler of stage [i] of the chain [mws], [h]: the middleware from
    [mws[i]] on, composed over [h].  Stage [len(mws)] is [h] itself. *)
Definition stage (mws : list HandlerFunc) (h : HandlerFunc) (i : nat) : HandlerFunc :=
  Build (mkChain (drop i mws)) h.

(** The context in which the terminal handler [h] is entered when the
    middleware [map around stages] was run from [c]: every stage has done
    its pre-[Next] work, and the last stage has installed [h]. *)
Definition at_terminal (stages : list (list WriterCall * list WriterCall))
    (h : HandlerFunc) (c : Context) : Context :=
  mkContext (Params c) (Writer c ++ concat (map fst stages))
    (match stages with [] => next c | _ :: _ => Some h end)
    (errorHandler c).

End Stages.

(** ** [router/router.go], [router/advanced.go]: the router *)

(** A call that may panic. *)
Inductive outcome (A : Type) :=
| Done (a : A)
| Panic (msg : string).
Arguments Done {A} a.
Arguments Panic {A} msg.

(** The radix tree of [router/tree.go] ([node], [addRoute], [getValue]) is
    used by the router but its source file is not among the sources; the
    router is embedded over any implementation of it.  [new_node] is [&node{}];
    [getValue] returns the handler (nil when there is no match), the
    parameters (nil when none were captured) and the trailing-slash hint. *)
Class Trie (node : Type) := {
  new_node : node;
  addRoute : node → string → context.HandlerFunc → outcome node;
  getValue : node → string →
             option context.HandlerFunc * option (gmap string string) * bool;
}.

Module Router.
Import context MiddlewareChain.

Section WithTrie.
Context {node : Type} {trie : Trie node}.

(** The fields of [Router] that registration and dispatch use; [routes],
    [namedRoutes] and [constraints] are only touched by the route builder. *)
Record Router := mkRouter {
  trees : gmap string node;
  notFoundHandler : option HandlerFunc;
  methodNotAllowedHandler : option HandlerFunc;
}.

(** [func New() *Router] *)
Definition New : Router := mkRouter ∅ None None.

(** [len(path) < 1 || path[0] != '/'] *)
Definition bad_path (path : string) : bool :=
  (String.length path <? 1)%nat
  || match String.get 0 path with
     | Some b => negb (Ascii.eqb b "/"%char)
     | None => true
     end.

(** [func (r *Router) Handle(method, path, handler, middleware...)].
    [handler] may be nil ([None]). *)
Definition Handle (r : Router) (method path : string)
    (handler : option HandlerFunc) (mws : list HandlerFunc) : outcome Router :=
  if String.eqb method EmptyString then Panic "method must not be empty"
  else if bad_path path then
    Panic ("path must begin with '/' in path '" +:+ path +:+ "'")
  else
    match handler with
    | None => Panic "handler must not be nil"
    | Some handler =>
        let root :=
          match trees r !! method with
          | Some root => root
          | None => new_node
          end in
        let finalHandler := chain_loop mws (length mws) handler in
        match addRoute root path finalHandler with
        | Panic msg => Panic msg
        | Done root' =>
            Done (mkRouter (<[method := root']> (trees r))
                    (notFoundHandler r) (methodNotAllowedHandler r))
        end
    end.

(** [func (r *Router) SetNotFoundHandler(handler)] *)
Definition SetNotFoundHandler (r : Router) (handler : option HandlerFunc) : Router :=
  mkRouter (trees r) handler (methodNotAllowedHandler r).

(** [func (r *Router) SetMethodNotAllowedHandler(handler)] *)
Definition SetMethodNotAllowedHandler (r : Router) (handler : option HandlerFunc) : Router :=
  mkRouter (trees r) (notFoundHandler r) handler.

(** The request, as far as dispatch reads it: [req.Method], [req.URL.Path]. *)
Record Request := mkRequest { Method : string; Path : string }.

(** The handler that [root.getValue(path)] returns for the tree of [method]. *)
Definition lookup_handler (r : Router) (method path : string)
    : option (HandlerFunc * option (gmap string string)) :=
  match trees r !! method with
  | None => None
  | Some root =>
      match getValue root path with
      | (Some handle, params, _) => Some (handle, params)
      | (None, _, _) => None
      end
  end.

(** The loop [for m := range r.trees] of [ServeHTTP]: does the tree of some
    method other than [method] have a handler for [path]?  The loop
    returns at its first hit and the order of iteration does not show. *)
Definition other_method_matches (r : Router) (method path : string) : bool :=
  existsb
    (λ '(m, root),
       negb (String.eqb m method)
       && match getValue root path with
          | (Some _, _, _) => true
          | (None, _, _) => false
          end)
    (map_to_list (trees r)).

(** [if params != nil { c.SetParams(params) }] *)
Definition bind_params (params : option (gmap string string)) (c : Context)
    : Context :=
  match params with
  | Some params => SetParams params c
  | None => c
  end.

(** [func (r *Router) ServeHTTP(w, req, c)].  The responses are written
    through [c.Writer]; the parameter [w] is not used by the body. *)
Definition ServeHTTP (fuel : nat) (r : Router) (req : Request) (c : Context)
    : option Context :=
  let method := Method req in
  let path := Path req in
  match lookup_handler r method path with
  | Some (handle, params) =>
      let c := bind_params params c in
      match run fuel handle c with
      | None => None
      | Some (None, c) => Some c
      | Some (Some err, c) =>
          match GetErrorHandler c with
          | Some errorHandler =>
              match run fuel (errorHandler err) c with
              | None => None
              | Some (_, c) => Some c
              end
          | None => Some c
          end
      end
  | None =>
      if other_method_matches r method path
      then Some (respond 405 "Method Not Allowed" c)
      else Some (respond 404 "Not Found" c)
  end.

End WithTrie.
Arguments Router node : clear implicits.

End Router.

(** ** Go slices of handlers

    A group keeps its middleware in a slice, and [append] may write into the
    backing array that the slice shares with other slices.  A slice is a
    pointer to a backing array, a length and a capacity; the heap holds the
    arrays.  An array is represented by its cells up to the last one written
    (the cells after it hold nil and are not stored).  The slices of this
    package are never re-sliced, so every slice starts at the first cell of
    its array. *)
Module slices.
Import context.

Record slice := mkSlice {
  array : option nat;   (* the address of the backing array; [None] is nil *)
  len : nat;
  cap : nat;
}.

Abbreviation Heap := (gmap nat (list HandlerFunc)).

(** The nil slice. *)
Definition nil : slice := mkSlice None 0 0.

Definition cells (heap : Heap) (s : slice) : list HandlerFunc :=
  match array s with
  | Some a => default [] (heap !! a)
  | None => []
  end.

(** The elements [s[0], ..., s[len(s)-1]]. *)
Definition elems (heap : Heap) (s : slice) : list HandlerFunc :=
  take (len s) (cells heap s).

(** A slice is well formed in a heap when its array is allocated and has at
    least [len] cells written and at most [cap]; a nil slice has length and
    capacity 0. *)
Definition valid (heap : Heap) (s : slice) : bool :=
  match array s with
  | Some a =>
      match heap !! a with
      | Some cs => (len s <=? length cs)%nat && (length cs <=? cap s)%nat
      | None => false
      end
  | None => (len s =? 0)%nat && (cap s =? 0)%nat
  end.

(** A lower bound for the capacity of the array that [append] allocates
    when the old one is too small.  It is not the exact capacity: the
    runtime rounds it up to a size class (to 6 where this gives 5, for
    instance).  The router only depends on the new capacity being at least
    [needed], and nothing below uses more than that. *)
Definition growcap (old needed : nat) : nat := Nat.max needed (2 * old).

(** [append(s, xs...)].  When the capacity suffices the new elements are
    written into the backing array of [s], after its first [len(s)] cells:
    every slice that shares the array sees them.  Otherwise a new array is
    allocated and [s]'s elements are copied into it. *)
Definition append (heap : Heap) (s : slice) (xs : list HandlerFunc) : slice * Heap :=
  let n := (len s + length xs)%nat in
  if (n <=? cap s)%nat then
    match array s with
    | Some a =>
        let cs := cells heap s in
        (mkSlice (Some a) n (cap s),
         <[a := take (len s) cs ++ xs ++ drop n cs]> heap)
    | None => (s, heap)
    end
  else
    let a := fresh (dom heap) in
    (mkSlice (Some a) n (growcap (cap s) n), <[a := elems heap s ++ xs]> heap).

End slices.

(** ** [router/group.go]: route groups *)

Module Group.
Import context slices.

Section WithTrie.
Context {node : Type} {trie : Trie node}.

(** [Group.router] is a back-reference to the router; the router is passed
    to [handle] as the state it updates.  The variadic parameter
    [middleware ...HandlerFunc] is a slice. *)
Record Group := mkGroup {
  prefix : string;
  middleware : slice;
}.

(** [func (r *Router) Group(prefix, middleware...) *Group] *)
Definition Router_Group (prefix : string) (mws : slice) : Group :=
  mkGroup prefix mws.

(** [func (g *Group) Group(prefix, middleware...) *Group] *)
Definition Group_ (heap : Heap) (g : Group) (sub : string) (mws : slice)
    : Group * Heap :=
  let '(all, heap) := append heap (middleware g) (elems heap mws) in
  (mkGroup (prefix g +:+ sub) all, heap).

(** [func (g *Group) Use(middleware...)] *)
Definition Use (heap : Heap) (g : Group) (mws : slice) : Group * Heap :=
  let '(all, heap) := append heap (middleware g) (elems heap mws) in
  (mkGroup (prefix g) all, heap).

(** [func (g *Group) handle(method, path, handler, middleware...)].
    [Router.Handle] reads the elements of [allMiddleware] when it composes
    the handler. *)
Definition handle (heap : Heap) (g : Group) (r : Router.Router node)
    (method path : string) (handler : option HandlerFunc) (mws : slice)
    : outcome (Router.Router node) * Heap :=
  let '(allMiddleware, heap) := append heap (middleware g) (elems heap mws) in
  let fullPath := prefix g +:+ path in
  (Router.Handle r method fullPath handler (elems heap allMiddleware), heap).

Definition GET heap g r path handler mws := handle heap g r "GET" path handler mws.
Definition POST heap g r path handler mws := handle heap g r "POST" path handler mws.
Definition PUT heap g r path handler mws := handle heap g r "PUT" path handler mws.
Definition DELETE heap g r path handler mws := handle heap g r "DELETE" path handler mws.
Definition PATCH heap g r path handler mws := handle heap g r "PATCH" path handler mws.
Definition HEAD heap g r path handler mws := handle heap g r "HEAD" path handler mws.
Definition OPTIONS heap g r path handler mws := handle heap g r "OPTIONS" path handler mws.

End WithTrie.

End Group.

(** ** [pkg/response/writer.go]: the response writer wrapper *)

Module response.

(** Go's [int] is 64 bits wide and wraps around. *)
Definition int_wrap (z : Z) : Z := ((z + 2 ^ 63) mod 2 ^ 64 - 2 ^ 63)%Z.

(** The two methods of [http.ResponseWriter] that [Writer] forwards to. *)
Class ResponseWriter (U : Type) := {
  rw_WriteHeader : Z → U → U;
  rw_Write : string → U → (Z * option context.error) * U;
}.

Section WithUnderlying.
Context {U : Type} {underlying : ResponseWriter U}.

(** [mu] guards the fields against concurrent callers and has no effect on
    a sequence of calls. *)
Record Writer := mkWriter {
  ResponseWriter_ : U;
  statusCode : Z;
  written : bool;
  size : Z;
}.

(** [func NewWriter(w http.ResponseWriter) *Writer] *)
Definition NewWriter (w : U) : Writer := mkWriter w 200 false 0.

(** [func (w *Writer) WriteHeader(code int)] *)
Definition WriteHeader (code : Z) (w : Writer) : Writer :=
  if written w then w
  else mkWriter (rw_WriteHeader code (ResponseWriter_ w)) code (written w) (size w).

(** [func (w *Writer) Write(data []byte) (int, error)] *)
Definition Write (data : string) (w : Writer) : (Z * option context.error) * Writer :=
  let w :=
    if negb (written w)
    then mkWriter (rw_WriteHeader (statusCode w) (ResponseWriter_ w))
           (statusCode w) true (size w)
    else w in
  let '((n, err), u) := rw_Write data (ResponseWriter_ w) in
  ((n, err), mkWriter u (statusCode w) (written w) (int_wrap (size w + n))).

Definition Status (w : Writer) : Z := statusCode w.
Definition Size (w : Writer) : Z := size w.
Definition Written (w : Writer) : bool := written w.

End WithUnderlying.
Arguments Writer U : clear implicits.

(** A response writer that records the calls it receives and accepts every
    byte, as [httptest.ResponseRecorder] does in the package's tests. *)
Record Recorder := mkRecorder { calls : list context.WriterCall }.

#[export] Instance recorder_writer : ResponseWriter Recorder := {
  rw_WriteHeader code u := mkRecorder (calls u ++ [context.CallWriteHeader code]);
  rw_Write data u :=
    ((Z.of_nat (String.length data), None),
     mkRecorder (calls u ++ [context.CallWrite data]));
}.

End response.

(** ** A route table

    A small implementation of the [Trie] interface: the list of the
    registered patterns, searched in the order of registration with
    [RouteUtils.MatchPath]; the parameters are those of
    [RouteUtils.ExtractParams], nil when there are none.  It instantiates
    the interface in the closed examples. *)
Module Table.
Import context RouteUtils.

Definition node := list (string * HandlerFunc).

Definition find (n : node) (path : string) : option (string * HandlerFunc) :=
  List.find (λ route, MatchPath (fst route) path) n.

Definition registered (n : node) (pattern : string) : bool :=
  existsb (λ route, String.eqb (fst route) pattern) n.

#[export] Instance table_trie : Trie node := {
  new_node := [];
  addRoute n pattern h :=
    if registered n pattern
    then Panic ("duplicate pattern '" +:+ pattern +:+ "'")
    else Done (n ++ [(pattern, h)]);
  getValue n path :=
    match find n path with
    | Some (pattern, h) =>
        let params := ExtractParams pattern path in
        (Some h, if decide (params = ∅) then None else Some params, false)
    | None => (None, None, false)
    end;
}.

End Table.

(** ** The data of the closed examples *)

Module Examples.
Import context Stages.

(** A context fresh from [Reset]. *)
Definition c0 : Context := mkContext ∅ [] None None.

(** [c.String(status, body)], as far as the writer sees it. *)
Definition String_ (status : Z) (body : string) : HandlerFunc :=
  WriterDo (CallWriteHeader status) (WriterDo (CallWrite body) (Return None)).

(** The chain of [TestMiddlewareChain]. *)
Definition test_stages : list (list WriterCall * list WriterCall) :=
  [ ([CallWrite "mw1-start"], [CallWrite "mw1-end"]);
    ([CallWrite "mw2-start"], [CallWrite "mw2-end"]) ].
Definition test_handler : HandlerFunc :=
  WriterDo (CallWrite "handler") (Return None).

(** [func(c) error { return c.String(200, c.Param("id")) }] *)
Definition echo_id : HandlerFunc := Param "id" (λ id, String_ 200 id).

(** A handler that fails, and a context whose error handler reports the
    error with status 500. *)
Definition failing : HandlerFunc := Return (Some "boom").
Definition c_err : Context := mkContext ∅ [] None (Some (λ err, String_ 500 err)).

(** A router with three [GET] routes, over the route table. *)
Definition example_table : Table.node :=
  [("/exists", String_ 200 "ok"); ("/users/:id", echo_id); ("/fail", failing)].
Definition example_router : Router.Router Table.node :=
  Router.mkRouter {[ "GET" := example_table ]} None None.

(** A heap with one backing array of capacity 4 that has three cells
    written, and a group whose middleware is the first two of them: the
    array has room for an [append] in place. *)
Definition mw_a : HandlerFunc := around ([CallWrite "a"], []).
Definition mw_b : HandlerFunc := around ([CallWrite "b"], []).
Definition mw_c : HandlerFunc := around ([CallWrite "c"], []).
Definition mw_d : HandlerFunc := around ([CallWrite "d"], []).
Definition example_heap : slices.Heap :=
  {[ 1%nat := [mw_a; mw_b; mw_c]; 2%nat := [mw_d] ]}.
Definition example_group : Group.Group :=
  Group.mkGroup "/api" (slices.mkSlice (Some 1%nat) 2 4).
Definition example_extra : slices.slice := slices.mkSlice (Some 2%nat) 1 1.

(** A group whose middleware slice is full: [append] has to allocate. *)
Definition full_group : Group.Group :=
  Group.mkGroup "/admin" (slices.mkSlice (Some 2%nat) 1 1).

(** Custom 404 and 405 handlers. *)
Definition custom_not_found : HandlerFunc := String_ 404 "no such page".
Definition custom_not_allowed : HandlerFunc := String_ 405 "wrong method".

End Examples.

(** ** [router/router.go]: the utility functions of the radix tree *)

Module RouterInternals.
Import GoStrings.

(** A [uint8] wraps around at 256. *)
Definition wrap8 (z : Z) : Z := (z mod 256)%Z.

(** [c == ':' || c == '*'] *)
Definition is_marker (c : ascii) : bool :=
  Ascii.eqb c ":"%char || Ascii.eqb c "*"%char.

(** The loop of [countParams]; [n] is the [uint8] counter. *)
Fixpoint countParams_loop (path : string) (n : Z) : Z :=
  match path with
  | EmptyString => n
  | String c rest =>
      countParams_loop rest (if is_marker c then wrap8 (n + 1) else n)
  end.

(** [func countParams(path string) uint8] *)
Definition countParams (path : string) : Z := countParams_loop path 0.

(** [func min(a, b int) int], on lengths. *)
Definition min (a b : nat) : nat := if (a <? b)%nat then a else b.

(** The loop [for i < max && a[i] == b[i] { i++ }].  It runs at most [max]
    rounds, which is the fuel it is given. *)
Fixpoint longestCommonPrefix_loop (a b : string) (max fuel i : nat) : nat :=
  match fuel with
  | O => i
  | S fuel' =>
      if (i <? max)%nat && bool_decide (String.get i a = String.get i b)
      then longestCommonPrefix_loop a b max fuel' (S i)
      else i
  end.

(** [func longestCommonPrefix(a, b string) int] *)
Definition longestCommonPrefix (a b : string) : nat :=
  let max := min (String.length a) (String.length b) in
  longestCommonPrefix_loop a b max max 0.

(** The inner loop of [findWildcard], [for end, c := range path[start+1:]]:
    the index of the first slash, if there is one, and the [valid] flag. *)
Fixpoint findWildcard_end (rest : string) (end_ : nat) (valid : bool)
    : option nat * bool :=
  match rest with
  | EmptyString => (None, valid)
  | String c rest' =>
      if Ascii.eqb c "/"%char then (Some end_, valid)
      else findWildcard_end rest' (S end_) (if is_marker c then false else valid)
  end.

(** The outer loop of [findWildcard]; [suffix] is [path[start:]], so
    [path[start : start+1+end]] is [suffix[:1+end]]. *)
Fixpoint findWildcard_loop (suffix : string) (start : nat) : string * Z * bool :=
  match suffix with
  | EmptyString => (EmptyString, (-1)%Z, false)
  | String c rest =>
      if negb (is_marker c) then findWildcard_loop rest (S start)
      else
        match findWildcard_end rest 0 true with
        | (Some end_, valid) => (upto (1 + end_) suffix, Z.of_nat start, valid)
        | (None, valid) => (suffix, Z.of_nat start, valid)
        end
  end.

(** [func findWildcard(path string) (wildcard string, i int, valid bool)] *)
Definition findWildcard (path : string) : string * Z * bool :=
  findWildcard_loop path 0.

End RouterInternals.

(** ** [router/constraints.go]: parameter constraints *)

Module constraints.
Import GoStrings.

(** [type Constraint func(value string) bool] *)
Definition Constraint := string → bool.

Definition byte_in (lo hi c : ascii) : bool :=
  (N_of_ascii lo <=? N_of_ascii c)%N && (N_of_ascii c <=? N_of_ascii hi)%N.

Definition is_digit (c : ascii) : bool := byte_in "0" "9" c.
Definition is_letter (c : ascii) : bool := byte_in "a" "z" c || byte_in "A" "Z" c.

(** The loop [for _, r := range value { if !ok(r) { return false } }].  The
    loop visits the runes of [value]; the tests below only accept ASCII
    runes, a byte below 128 is always a rune of its own, and a byte from 128
    on only occurs in a rune from 128 on (or in the replacement rune), so
    the loop accepts exactly when every byte passes the test. *)
Fixpoint all_bytes (ok : ascii → bool) (value : string) : bool :=
  match value with
  | EmptyString => true
  | String c rest => if negb (ok c) then false else all_bytes ok rest
  end.

(** [IsNumeric]: only digits, and [len(value) > 0]. *)
Definition IsNumeric : Constraint :=
  λ value, all_bytes is_digit value && (0 <? String.length value)%nat.

(** [IsAlpha]: only letters, and [len(value) > 0]. *)
Definition IsAlpha : Constraint :=
  λ value, all_bytes is_letter value && (0 <? String.length value)%nat.

(** [IsAlphaNumeric]: only letters and digits, and [len(value) > 0]. *)
Definition IsAlphaNumeric : Constraint :=
  λ value,
    all_bytes (λ c, is_letter c || is_digit c) value
    && (0 <? String.length value)%nat.

(** [IsURL] *)
Definition IsURL : Constraint :=
  λ value, HasPrefix value "http://" || HasPrefix value "https://".

(** [func MinLength(min int) Constraint] *)
Definition MinLength (min : Z) : Constraint :=
  λ value, (min <=? Z.of_nat (String.length value))%Z.

(** [func MaxLength(max int) Constraint] *)
Definition MaxLength (max : Z) : Constraint :=
  λ value, (Z.of_nat (String.length value) <=? max)%Z.

(** [func LengthRange(min, max int) Constraint] *)
Definition LengthRange (min max : Z) : Constraint :=
  λ value,
    let l := Z.of_nat (String.length value) in
    (min <=? l)%Z && (l <=? max)%Z.

(** The digits of a decimal numeral, most significant first. *)
Fixpoint parse_digits (s : string) (acc : Z) : option Z :=
  match s with
  | EmptyString => Some acc
  | String c rest =>
      if is_digit c
      then parse_digits rest (acc * 10 + (Z.of_N (N_of_ascii c) - 48))%Z
      else None
  end.

(** [strconv.Atoi(s)] with a 64-bit [int]: an optional sign and one or more
    decimal digits, whose value lies between [-2^63] and [2^63-1]; [None]
    is an error (of syntax or of range). *)
Definition Atoi (s : string) : option Z :=
  match s with
  | EmptyString => None
  | String c rest =>
      let neg := Ascii.eqb c "-"%char in
      let digits :=
        if Ascii.eqb c "-"%char || Ascii.eqb c "+"%char then rest else s in
      match digits with
      | EmptyString => None
      | String _ _ =>
          match parse_digits digits 0 with
          | None => None
          | Some n =>
              let v := (if neg then - n else n)%Z in
              if (- 2 ^ 63 <=? v)%Z && (v <=? 2 ^ 63 - 1)%Z then Some v else None
          end
      end
  end.

(** [func MinValue(min int) Constraint] *)
Definition MinValue (min : Z) : Constraint :=
  λ value,
    match Atoi value with
    | Some val => (min <=? val)%Z
    | None => false
    end.

(** [func MaxValue(max int) Constraint] *)
Definition MaxValue (max : Z) : Constraint :=
  λ value,
    match Atoi value with
    | Some val => (val <=? max)%Z
    | None => false
    end.

(** [func ValueRange(min, max int) Constraint] *)
Definition ValueRange (min max : Z) : Constraint :=
  λ value,
    match Atoi value with
    | Some val => (min <=? val)%Z && (val <=? max)%Z
    | None => false
    end.

(** The loop of [OneOf] that fills [allowedMap]. *)
Fixpoint OneOf_fill (allowed : list string) (allowedMap : gmap string bool)
    : gmap string bool :=
  match allowed with
  | [] => allowedMap
  | v :: rest => OneOf_fill rest (<[v := true]> allowedMap)
  end.

(** [func OneOf(allowed ...string) Constraint]; a key that is not in the map
    reads as [false]. *)
Definition OneOf (allowed : list string) : Constraint :=
  let allowedMap := OneOf_fill allowed ∅ in
  λ value, default false (allowedMap !! value).

(** [func Custom(fn func(string) bool) Constraint] *)
Definition Custom (fn : string → bool) : Constraint := fn.

(** [func And(constraints ...Constraint) Constraint] *)
Fixpoint And (cs : list Constraint) : Constraint :=
  λ value,
    match cs with
    | [] => true
    | constraint :: rest =>
        if negb (constraint value) then false else And rest value
    end.

(** [func Or(constraints ...Constraint) Constraint] *)
Fixpoint Or (cs : list Constraint) : Constraint :=
  λ value,
    match cs with
    | [] => false
    | constraint :: rest =>
        if constraint value then true else Or rest value
    end.

(** [func Not(constraint Constraint) Constraint] *)
Definition Not (constraint : Constraint) : Constraint :=
  λ value, negb (constraint value).

End constraints.

(** ** [router/utils.go]: the other utilities *)

Module RouteUtilsMore.
Import GoStrings RouteUtils context constraints.

(** [func (ru *RouteUtils) ValidatePath(path string) error]; [None] is nil. *)
Definition ValidatePath (path : string) : option error :=
  if String.eqb path EmptyString then Some "path cannot be empty"
  else if negb (HasPrefix path "/") then Some "path must start with '/'"
  else if Contains path "//" then Some "path cannot contain consecutive slashes"
  else None.

(** [func (ru *RouteUtils) CombinePaths(base, path string) string] *)
Definition CombinePaths (base path : string) : string :=
  let base := NormalizePath base in
  let path := NormalizePath path in
  if String.eqb base "/" then path
  else if String.eqb path "/" then base
  else base +:+ path.

(** [func (ru *RouteUtils) IsValidMethod(method string) bool] *)
Definition IsValidMethod (method : string) : bool :=
  existsb (λ validMethod, String.eqb method validMethod)
    ["GET"; "POST"; "PUT"; "DELETE"; "PATCH"; "HEAD"; "OPTIONS"; "TRACE"; "CONNECT"].

(** [type RoutePattern struct] *)
Record RoutePattern := mkRoutePattern {
  Pattern : string;
  Params : list string;
  Wildcards : list string;
  StaticParts : list string;
  HasParams : bool;
  HasWildcard : bool;
}.

(** The loop of [ParseRoutePattern] over the pieces of the pattern. *)
Fixpoint ParseRoutePattern_loop (parts params wildcards staticParts : list string)
    : list string * list string * list string :=
  match parts with
  | [] => (params, wildcards, staticParts)
  | part :: rest =>
      if HasPrefix part ":" then
        ParseRoutePattern_loop rest (params ++ [from 1 part]) wildcards staticParts
      else if HasPrefix part "*" then
        ParseRoutePattern_loop rest params (wildcards ++ [from 1 part]) staticParts
      else if negb (String.eqb part EmptyString) then
        ParseRoutePattern_loop rest params wildcards (staticParts ++ [part])
      else ParseRoutePattern_loop rest params wildcards staticParts
  end.

(** [func (ru *RouteUtils) ParseRoutePattern(pattern string) *RoutePattern] *)
Definition ParseRoutePattern (pattern : string) : RoutePattern :=
  let parts := Split pattern "/" in
  let '(params, wildcards, staticParts) := ParseRoutePattern_loop parts [] [] [] in
  mkRoutePattern pattern params wildcards staticParts
    (0 <? length params)%nat (0 <? length wildcards)%nat.

(** [type PathMatcher struct] *)
Record PathMatcher := mkPathMatcher {
  caseSensitive : bool;
  strictSlash : bool;
}.

(** [func NewPathMatcher(caseSensitive, strictSlash bool) *PathMatcher] *)
Definition NewPathMatcher (caseSensitive strictSlash : bool) : PathMatcher :=
  mkPathMatcher caseSensitive strictSlash.

(** [func (pm *PathMatcher) Match(pattern, path string) bool], over the
    library function [strings.ToLower]. *)
Definition Match (ToLower : string → string) (pm : PathMatcher)
    (pattern path : string) : bool :=
  let pattern := if negb (caseSensitive pm) then ToLower pattern else pattern in
  let path := if negb (caseSensitive pm) then ToLower path else path in
  let '(pattern, path) :=
    if negb (strictSlash pm) then
      let pattern := TrimSuffix pattern "/" in
      let path := TrimSuffix path "/" in
      let pattern := if String.eqb pattern EmptyString then "/" else pattern in
      let path := if String.eqb path EmptyString then "/" else path in
      (pattern, path)
    else (pattern, path) in
  MatchPath pattern path.

(** [!HasPrefix(part, ":") && !HasPrefix(part, "*")] *)
Definition is_static (part : string) : bool :=
  negb (HasPrefix part ":") && negb (HasPrefix part "*").

(** The loop [for i := 0; i < len(parts1); i++] of [DetectConflicts]; [n]
    counts the rounds that are left. *)
Fixpoint DetectConflicts_loop (parts1 parts2 : list string) (n i : nat) : bool :=
  match n with
  | O => true
  | S n' =>
      let part1 := parts1 !!! i in
      let part2 := parts2 !!! i in
      if negb (HasPrefix part1 ":") && negb (HasPrefix part1 "*")
         && negb (HasPrefix part2 ":") && negb (HasPrefix part2 "*")
         && negb (String.eqb part1 part2)
      then false
      else DetectConflicts_loop parts1 parts2 n' (S i)
  end.

(** [func (rcd *RouteConflictDetector) DetectConflicts(pattern1, pattern2 string) bool] *)
Definition DetectConflicts (pattern1 pattern2 : string) : bool :=
  if String.eqb pattern1 pattern2 then true
  else
    let p1 := ParseRoutePattern pattern1 in
    let p2 := ParseRoutePattern pattern2 in
    if HasWildcard p1 && HasWildcard p2 then true
    else
      let parts1 := Split pattern1 "/" in
      let parts2 := Split pattern2 "/" in
      if negb (length parts1 =? length parts2)%nat then false
      else DetectConflicts_loop parts1 parts2 (length parts1) 0.

(** The loop [for paramName, constraint := range constraints] of
    [ValidateParams], over the entries of the map in the order in which the
    loop visits them. *)
Fixpoint ValidateParams_loop (params : gmap string string)
    (entries : list (string * Constraint)) : option error :=
  match entries with
  | [] => None
  | (paramName, constraint) :: rest =>
      match params !! paramName with
      | None => Some ("parameter '" +:+ paramName +:+ "' is required")
      | Some value =>
          if negb (constraint value) then
            Some ("parameter '" +:+ paramName +:+ "' with value '" +:+ value
                  +:+ "' failed validation")
          else ValidateParams_loop params rest
      end
  end.

(** [func (cv *ConstraintValidator) ValidateParams(params, constraints) error] *)
Definition ValidateParams (params : gmap string string)
    (constraints : gmap string Constraint) : option error :=
  ValidateParams_loop params (map_to_list constraints).

(** [type RouteInfo struct] of [router/router.go]. *)
Record RouteInfo := mkRouteInfo {
  Method : string;
  Path : string;
  Name : string;
  Handler : option HandlerFunc;
  Middleware : list HandlerFunc;
  Constraints : gmap string Constraint;
  Subdomain : string;
}.

(** [type RouteStatistics struct]; the counters are Go [int]s. *)
Record RouteStatistics := mkRouteStatistics {
  TotalRoutes : Z;
  StaticRoutes : Z;
  ParametricRoutes : Z;
  WildcardRoutes : Z;
  NamedRoutes : Z;
  MiddlewareCount : Z;
  ConstraintCount : Z;
  MethodDistribution : gmap string Z;
}.

Definition incr (z : Z) : Z := response.int_wrap (z + 1).

(** One round of the loop of [CalculateStatistics]. *)
Definition CalculateStatistics_step (stats : RouteStatistics) (route : RouteInfo)
    : RouteStatistics :=
  let total := incr (TotalRoutes stats) in
  let named :=
    if negb (String.eqb (Name route) EmptyString)
    then incr (NamedRoutes stats) else NamedRoutes stats in
  let mwCount :=
    response.int_wrap (MiddlewareCount stats + Z.of_nat (length (Middleware route))) in
  let cCount :=
    response.int_wrap (ConstraintCount stats + Z.of_nat (size (Constraints route))) in
  let dist :=
    <[Method route := incr (default 0%Z (MethodDistribution stats !! Method route))]>
      (MethodDistribution stats) in
  let pattern := ParseRoutePattern (Path route) in
  if HasWildcard pattern then
    mkRouteStatistics total (StaticRoutes stats) (ParametricRoutes stats)
      (incr (WildcardRoutes stats)) named mwCount cCount dist
  else if HasParams pattern then
    mkRouteStatistics total (StaticRoutes stats) (incr (ParametricRoutes stats))
      (WildcardRoutes stats) named mwCount cCount dist
  else
    mkRouteStatistics total (incr (StaticRoutes stats)) (ParametricRoutes stats)
      (WildcardRoutes stats) named mwCount cCount dist.

(** [func CalculateStatistics(routes []*RouteInfo) *RouteStatistics] *)
Definition CalculateStatistics (routes : list RouteInfo) : RouteStatistics :=
  fold_left CalculateStatistics_step routes
    (mkRouteStatistics 0 0 0 0 0 0 0 ∅).

End RouteUtilsMore.

(** ** Vocabulary of the statements about strings *)

Module Bytes.

(** Some byte of [s] passes the test. *)
Fixpoint any_byte (ok : ascii → bool) (s : string) : bool :=
  match s with
  | EmptyString => false
  | String c rest => ok c || any_byte ok rest
  end.

(** The number of bytes of [s] that pass the test. *)
Fixpoint count_bytes (ok : ascii → bool) (s : string) : nat :=
  match s with
  | EmptyString => 0
  | String c rest => (if ok c then 1 else 0) + count_bytes ok rest
  end.

(** The last byte of [s]. *)
Fixpoint last_byte (s : string) : option ascii :=
  match s with
  | EmptyString => None
  | String c EmptyString => Some c
  | String _ rest => last_byte rest
  end.

End Bytes.

(** ** Vocabulary of the statements about route patterns *)

Module Pieces.
Import GoStrings.

(** The names of the pieces of a pattern that start with a colon. *)
Definition param_names (parts : list string) : list string :=
  map (from 1) (List.filter (λ part, HasPrefix part ":") parts).

(** The names of the pieces that start with a star. *)
Definition wildcard_names (parts : list string) : list string :=
  map (from 1)
    (List.filter (λ part, negb (HasPrefix part ":") && HasPrefix part "*") parts).

(** The other pieces that are not empty. *)
Definition static_pieces (parts : list string) : list string :=
  List.filter
    (λ part,
       negb (HasPrefix part ":") && negb (HasPrefix part "*")
       && negb (String.eqb part EmptyString))
    parts.

End Pieces.

(** ** The data of further closed examples *)

Module MoreExamples.
Import context constraints RouteUtilsMore.

(** The routes of [TestCalculateStatistics]. *)
Definition test_routes : list RouteInfo :=
  [ mkRouteInfo "GET" "/users" "users.index" None [Return None] ∅ EmptyString;
    mkRouteInfo "GET" "/users/:id" EmptyString None [] {[ "id" := IsNumeric ]}
      EmptyString;
    mkRouteInfo "POST" "/users" EmptyString None [] ∅ EmptyString;
    mkRouteInfo "GET" "/static/*filepath" EmptyString None [] ∅ EmptyString ].

(** A heap with a group whose backing array has room for one more handler,
    and two one-element slices for the arguments of two calls. *)
Definition sibling_heap : slices.Heap :=
  {[ 1%nat := [Examples.mw_a; Examples.mw_b];
     2%nat := [Examples.mw_c]; 3%nat := [Examples.mw_d] ]}.
Definition sibling_parent : Group.Group :=
  Group.mkGroup "/api" (slices.mkSlice (Some 1%nat) 2 3).
Definition first_args : slices.slice := slices.mkSlice (Some 2%nat) 1 1.
Definition second_args : slices.slice := slices.mkSlice (Some 3%nat) 1 1.

End MoreExamples.

(** ** Sequences of calls on a [Writer] *)

Module WriterCalls.
Import context response.

Section WithUnderlying.
Context {U : Type} {underlying : ResponseWriter U}.

(** One call of [w.WriteHeader(code)] or [w.Write(data)], the results of
    [Write] dropped. *)
Definition call (w : Writer U) (op : WriterCall) : Writer U :=
  match op with
  | CallWriteHeader code => WriteHeader code w
  | CallWrite data => snd (Write data w)
  end.

(** The calls [ops] made on [w] one after the other. *)
Definition perform (ops : list WriterCall) (w : Writer U) : Writer U :=
  foldl call w ops.

End WithUnderlying.

Definition is_write (op : WriterCall) : bool :=
  match op with
  | CallWrite _ => true
  | CallWriteHeader _ => false
  end.

(** The number of bytes that the calls [ops] pass to [Write]. *)
Definition bytes_written (ops : list WriterCall) : nat :=
  foldr (λ op n, match op with
                 | CallWrite data => (String.length data + n)%nat
                 | CallWriteHeader _ => n
                 end) 0%nat ops.

End WriterCalls.

(** ** [router/advanced.go]: the route builder and named routes *)

Module Advanced.
Import GoStrings context constraints RouteUtilsMore.

(** [type RouteBuilder struct], without the pointer to the router, which
    [Build] takes as an argument.  Of a [RouteConstraint] only the [Checker]
    is kept: [Build] reads nothing else. *)
Record RouteBuilder := mkRouteBuilder {
  method : string;
  path : string;
  handler : option HandlerFunc;
  middleware : list HandlerFunc;
  rb_constraints : gmap string Constraint;
  name : string;
  subdomain : string;
}.

(** [func (r *Router) NewRoute() *RouteBuilder] *)
Definition NewRoute : RouteBuilder :=
  mkRouteBuilder EmptyString EmptyString None [] ∅ EmptyString EmptyString.

(** [func (rb *RouteBuilder) Method(method string) *RouteBuilder] *)
Definition RouteBuilder_Method (m : string) (rb : RouteBuilder) : RouteBuilder :=
  mkRouteBuilder m (path rb) (handler rb) (middleware rb) (rb_constraints rb)
    (name rb) (subdomain rb).

(** [func (rb *RouteBuilder) Path(path string) *RouteBuilder] *)
Definition RouteBuilder_Path (p : string) (rb : RouteBuilder) : RouteBuilder :=
  mkRouteBuilder (method rb) p (handler rb) (middleware rb) (rb_constraints rb)
    (name rb) (subdomain rb).

(** [func (rb *RouteBuilder) Handler(handler context.HandlerFunc) *RouteBuilder] *)
Definition RouteBuilder_Handler (h : option HandlerFunc) (rb : RouteBuilder)
    : RouteBuilder :=
  mkRouteBuilder (method rb) (path rb) h (middleware rb) (rb_constraints rb)
    (name rb) (subdomain rb).

(** [func (rb *RouteBuilder) Middleware(mw ...context.HandlerFunc) *RouteBuilder] *)
Definition RouteBuilder_Middleware (mw : list HandlerFunc) (rb : RouteBuilder)
    : RouteBuilder :=
  mkRouteBuilder (method rb) (path rb) (handler rb) (middleware rb ++ mw)
    (rb_constraints rb) (name rb) (subdomain rb).

(** [func (rb *RouteBuilder) Name(name string) *RouteBuilder] *)
Definition RouteBuilder_Name (n : string) (rb : RouteBuilder) : RouteBuilder :=
  mkRouteBuilder (method rb) (path rb) (handler rb) (middleware rb)
    (rb_constraints rb) n (subdomain rb).

(** [func (rb *RouteBuilder) Subdomain(subdomain string) *RouteBuilder] *)
Definition RouteBuilder_Subdomain (s : string) (rb : RouteBuilder) : RouteBuilder :=
  mkRouteBuilder (method rb) (path rb) (handler rb) (middleware rb)
    (rb_constraints rb) (name rb) s.

(** [func (rb *RouteBuilder) Where(param string, constraint interface{})] in
    the case [func(string) bool] of its type switch. *)
Definition Where (param : string) (c : Constraint) (rb : RouteBuilder)
    : RouteBuilder :=
  mkRouteBuilder (method rb) (path rb) (handler rb) (middleware rb)
    (<[param := c]> (rb_constraints rb)) (name rb) (subdomain rb).

(** [WhereNumber], [WhereAlpha], [WhereAlphaNumeric] *)
Definition WhereNumber (param : string) : RouteBuilder → RouteBuilder :=
  Where param IsNumeric.
Definition WhereAlpha (param : string) : RouteBuilder → RouteBuilder :=
  Where param IsAlpha.
Definition WhereAlphaNumeric (param : string) : RouteBuilder → RouteBuilder :=
  Where param IsAlphaNumeric.

(** [func (rb *RouteBuilder) WhereIn(param string, values ...string)] *)
Definition WhereIn (param : string) (values : list string)
    : RouteBuilder → RouteBuilder :=
  let valueMap := OneOf_fill values ∅ in
  Where param (λ value, default false (valueMap !! value)).

Section WithTrie.
Context {node : Type} {trie : Trie node}.

(** [Router] with the fields that the route builder touches.  [Build]
    allocates one [RouteInfo] object per call and [r.routes] holds the
    pointers to them in that order, so a [*RouteInfo] is the index of its
    object in [routes].  A nil map is [None]. *)
Record AdvancedRouter := mkAdvancedRouter {
  base : Router.Router node;
  routes : list RouteInfo;
  namedRoutes : option (gmap string nat);
  r_constraints : option (gmap string (gmap string Constraint));
}.

(** [func (r *Router) registerAdvancedRoute(info *RouteInfo)]; the object
    of [info] is stored at the index that the pointer stands for. *)
Definition registerAdvancedRoute (info : RouteInfo) (r : AdvancedRouter)
    : outcome AdvancedRouter :=
  let routes' := routes r ++ [info] in
  let namedRoutes' :=
    if negb (String.eqb (Name info) EmptyString)
    then Some (<[Name info := length (routes r)]> (default ∅ (namedRoutes r)))
    else namedRoutes r in
  match Router.Handle (base r) (Method info) (Path info) (Handler info)
          (Middleware info) with
  | Panic msg => Panic msg
  | Done b => Done (mkAdvancedRouter b routes' namedRoutes' (r_constraints r))
  end.

(** [func (rb *RouteBuilder) Build() *Route]; the [Route] is the pointer to
    the new [RouteInfo] (and the router).  The [RouteInfo] gets neither the
    constraints nor the subdomain of the builder. *)
Definition Build (rb : RouteBuilder) (r : AdvancedRouter)
    : outcome (nat * AdvancedRouter) :=
  if String.eqb (method rb) EmptyString || String.eqb (path rb) EmptyString
     || match handler rb with None => true | Some _ => false end
  then Panic "method, path, and handler are required"
  else
    let info := mkRouteInfo (method rb) (path rb) (name rb) (handler rb)
                  (middleware rb) ∅ EmptyString in
    let r1 :=
      if (0 <? size (rb_constraints rb))%nat then
        let all := default ∅ (r_constraints r) in
        let of_path := default ∅ (all !! path rb) in
        mkAdvancedRouter (base r) (routes r) (namedRoutes r)
          (Some (<[path rb :=
                   foldr (λ e m, <[e.1 := e.2]> m) of_path
                     (map_to_list (rb_constraints rb))]> all))
      else r in
    match registerAdvancedRoute info r1 with
    | Panic msg => Panic msg
    | Done r2 => Done (length (routes r), r2)
    end.

(** [func (r *Route) Name(name string) *Route], for a [Route] that [Build]
    returned: its [info] points into [routes]. *)
Definition Route_Name (route : nat) (n : string) (r : AdvancedRouter)
    : AdvancedRouter :=
  mkAdvancedRouter (base r)
    (alter (λ info, mkRouteInfo (Method info) (Path info) n (Handler info)
                      (Middleware info) (Constraints info) (Subdomain info))
       route (routes r))
    (Some (<[n := route]> (default ∅ (namedRoutes r))))
    (r_constraints r).

(** The loop of [URL]; [params] are the entries of the map in the order in
    which [range] visits them, which Go leaves unspecified. *)
Definition URL_loop (p : string) (params : list (string * string)) : string :=
  foldl (λ p e, ReplaceAll p (":" +:+ e.1) e.2) p params.

(** [func (r *Router) URL(name string, params map[string]string) (string, error)] *)
Definition URL (r : AdvancedRouter) (n : string) (params : list (string * string))
    : outcome (string * option error) :=
  match namedRoutes r with
  | None => Done (EmptyString, Some "no named routes registered")
  | Some named =>
      match named !! n with
      | None => Done (EmptyString, Some ("route '" +:+ n +:+ "' not found"))
      | Some route =>
          match routes r !! route with
          | None => Panic "invalid memory address or nil pointer dereference"
          | Some info => Done (URL_loop (Path info) params, None)
          end
      end
  end.

(** [func (r *Router) GetRoutes() []*RouteInfo] *)
Definition GetRoutes (r : AdvancedRouter) : list RouteInfo := routes r.

(** [func (r *Router) GetNamedRoutes() map[string]*RouteInfo] *)
Definition GetNamedRoutes (r : AdvancedRouter) : option (gmap string nat) :=
  namedRoutes r.

End WithTrie.
Arguments AdvancedRouter node : clear implicits.

End Advanced.

Module AdvancedExamples.
Import context Router Advanced Table Examples.

(** A router on which nothing is registered. *)
Definition empty_router : AdvancedRouter Table.node :=
  mkAdvancedRouter New [] None None.

(** [r.NewRoute().Method("GET").Path("/users/:id").Handler(h).Name("users.show")] *)
Definition show_user : RouteBuilder :=
  RouteBuilder_Name "users.show"
    (RouteBuilder_Handler (Some test_handler)
       (RouteBuilder_Path "/users/:id" (RouteBuilder_Method "GET" NewRoute))).

(** A route whose path has one parameter, [idx], the name of which extends
    the key [id]. *)
Definition show_item : RouteBuilder :=
  RouteBuilder_Name "items.show"
    (RouteBuilder_Handler (Some test_handler)
       (RouteBuilder_Path "/:idx" (RouteBuilder_Method "GET" NewRoute))).

Definition built (rb : RouteBuilder) : AdvancedRouter Table.node :=
  match Build rb empty_router with
  | Done (_, r) => r
  | Panic _ => empty_router
  end.

End AdvancedExamples.

(* ===================================================================== *)
(** * Part II. The properties                                             *)
(* ===================================================================== *)

(** ** Strings *)

Module GoStringsFacts.
Import GoStrings.

Lemma substring_all (s : string) : String.substring 0 (String.length s) s = s.
Proof. induction s as [|a s IH]; simpl; [done | by rewrite IH]. Qed.

(** [("*" + name)[1:] = name], and the same for any first byte. *)
Lemma from_1_cons (a : ascii) (s : string) : from 1 (String a s) = s.
Proof.
  unfold from. simpl. rewrite Nat.sub_0_r. apply substring_all.
Qed.

Lemma append_assoc (s t u : string) : (s +:+ t) +:+ u = s +:+ t +:+ u.
Proof.
  induction s as [|a s IH]; [done|].
  change (String a ((s +:+ t) +:+ u) = String a (s +:+ t +:+ u)).
  by rewrite IH.
Qed.

Lemma prefix_empty (s : string) : String.prefix EmptyString s = true.
Proof. by destruct s. Qed.

Lemma prefix_cons (a b : ascii) (s t : string) :
  String.prefix (String a s) (String b t) = Ascii.eqb a b && String.prefix s t.
Proof.
  cbn [String.prefix].
  destruct (Ascii.ascii_dec a b) as [->|Hne].
  - by rewrite Ascii.eqb_refl.
  - by destruct (Ascii.eqb_spec a b).
Qed.

Lemma prefix_slash (a : ascii) (s : string) :
  String.prefix "/" (String a s) = Ascii.eqb "/" a.
Proof. by rewrite prefix_cons, prefix_empty, andb_true_r. Qed.

Lemma prefix_slashes (a b : ascii) (s : string) :
  String.prefix "//" (String a (String b s)) = Ascii.eqb "/" a && Ascii.eqb "/" b.
Proof. by rewrite !prefix_cons, prefix_empty, andb_true_r. Qed.

Lemma Contains_cons (a : ascii) (s sub : string) :
  Contains (String a s) sub = String.prefix sub (String a s) || Contains s sub.
Proof. done. Qed.

Lemma split_nonempty (sep : string) (skip : nat) (s : string) :
  split_from sep skip s ≠ [].
Proof.
  revert skip. induction s as [|a s IH]; intros skip; cbn [split_from]; [done|].
  destruct skip as [|k]; [|apply IH].
  destruct (String.prefix sep (String a s)); [done|].
  destruct (split_from sep 0 s); done.
Qed.

(** Splitting at slashes, one byte at a time. *)
Lemma Split_slash_cons (a : ascii) (s : string) :
  Split (String a s) "/" =
    if Ascii.eqb "/" a then EmptyString :: Split s "/"
    else match Split s "/" with
         | piece :: pieces => String a piece :: pieces
         | [] => [String a EmptyString]
         end.
Proof.
  unfold Split. cbn [split_from String.length]. by rewrite prefix_slash.
Qed.

Lemma Split_slash_app (s t : string) :
  Split (s +:+ "/" +:+ t) "/" = Split s "/" ++ Split t "/".
Proof.
  induction s as [|a s IH].
  - change (EmptyString +:+ "/" +:+ t) with (String "/"%char t).
    by rewrite Split_slash_cons.
  - change (String a s +:+ "/" +:+ t) with (String a (s +:+ "/" +:+ t)).
    rewrite !Split_slash_cons, IH.
    destruct (Ascii.eqb "/" a); [done|].
    pose proof (split_nonempty "/" 0 s) as Hne. fold (Split s "/") in Hne.
    by destruct (Split s "/").
Qed.

(** A string without a slash is a single piece. *)
Lemma Split_no_slash (s : string) :
  Contains s "/" = false → Split s "/" = [s].
Proof.
  induction s as [|a s IH]; [done|].
  rewrite Contains_cons, prefix_slash, Split_slash_cons.
  intros [-> Hc]%orb_false_iff. by rewrite IH.
Qed.

Lemma ReplaceAll_slashes_cons2 (a b : ascii) (s : string) :
  ReplaceAll (String a (String b s)) "//" "/" =
    if Ascii.eqb "/" a && Ascii.eqb "/" b
    then String "/" (ReplaceAll s "//" "/")
    else String a (ReplaceAll (String b s) "//" "/").
Proof.
  unfold ReplaceAll.
  cbn [replace_from String.length Nat.sub]. rewrite prefix_slashes.
  by destruct (Ascii.eqb "/" a && Ascii.eqb "/" b).
Qed.

Lemma ReplaceAll_slashes_one (a : ascii) :
  ReplaceAll (String a EmptyString) "//" "/" = String a EmptyString.
Proof.
  unfold ReplaceAll. cbn [replace_from]. rewrite prefix_cons.
  by destruct (Ascii.eqb "/" a).
Qed.

Lemma Contains_slashes_cons2 (a b : ascii) (s : string) :
  Contains (String a (String b s)) "//" =
    (Ascii.eqb "/" a && Ascii.eqb "/" b) || Contains (String b s) "//".
Proof. by rewrite Contains_cons, prefix_slashes. Qed.

(** [ReplaceAll(s, "//", "/")] never lengthens [s], and shortens it when
    [s] contains ["//"]: the loop of [NormalizePath] terminates. *)
Lemma ReplaceAll_slashes_length (n : nat) (s : string) :
  (String.length s ≤ n)%nat →
  (String.length (ReplaceAll s "//" "/") ≤ String.length s)%nat
  ∧ (Contains s "//" = true →
     (String.length (ReplaceAll s "//" "/") < String.length s)%nat).
Proof.
  revert s. induction n as [|n IH]; intros s Hlen.
  { destruct s; simpl in Hlen; [|lia]. split; [done | done]. }
  destruct s as [|a [|b s]].
  - split; done.
  - rewrite ReplaceAll_slashes_one. split; [done|].
    rewrite Contains_cons, prefix_cons. cbn.
    by rewrite andb_false_r.
  - rewrite ReplaceAll_slashes_cons2, Contains_slashes_cons2.
    cbn [String.length] in Hlen.
    destruct (Ascii.eqb "/" a && Ascii.eqb "/" b).
    + destruct (IH s) as [Hle _]; [lia|].
      cbn [String.length]. split; [lia | intros _; lia].
    + destruct (IH (String b s)) as [Hle Hlt]; [cbn [String.length]; lia|].
      cbn [String.length] in *. split; [lia|].
      intros Hc. specialize (Hlt Hc). lia.
Qed.

End GoStringsFacts.

(** ** [RouteUtils] *)

Module RouteUtilsFacts.
Import GoStrings GoStringsFacts RouteUtils.

(** The loop of [NormalizePath] has reached its exit condition when the
    fuel given to it is at least the length of the path. *)
Lemma collapse_slashes_done (fuel : nat) (path : string) :
  (String.length path ≤ fuel)%nat →
  Contains (collapse_slashes fuel path) "//" = false.
Proof.
  revert path. induction fuel as [|fuel IH]; intros path Hlen.
  - by destruct path; [|simpl in Hlen; lia].
  - simpl. destruct (Contains path "//") eqn:Hc; [|done].
    apply IH.
    destruct (ReplaceAll_slashes_length _ path (Nat.le_refl _)) as [_ Hlt].
    specialize (Hlt Hc). lia.
Qed.

(** Whatever the input, the result of [NormalizePath] has no ["//"]. *)
Lemma NormalizePath_no_double_slash (path : string) :
  Contains (NormalizePath path) "//" = false.
Proof.
  unfold NormalizePath. destruct (String.eqb path EmptyString); [done|].
  by apply collapse_slashes_done.
Qed.

Lemma ReplaceAll_slashes_leading (s : string) :
  HasPrefix s "/" = true → HasPrefix (ReplaceAll s "//" "/") "/" = true.
Proof.
  unfold HasPrefix. destruct s as [|a [|b s]]; [done| |].
  - by rewrite ReplaceAll_slashes_one.
  - rewrite ReplaceAll_slashes_cons2, prefix_slash. intros Ha.
    destruct (Ascii.eqb "/" a && Ascii.eqb "/" b); by rewrite prefix_slash.
Qed.

Lemma collapse_slashes_leading (fuel : nat) (path : string) :
  HasPrefix path "/" = true → HasPrefix (collapse_slashes fuel path) "/" = true.
Proof.
  revert path. induction fuel as [|fuel IH]; intros path Hp; [done|].
  cbn [collapse_slashes]. destruct (Contains path "//"); [|done].
  by apply IH, ReplaceAll_slashes_leading.
Qed.

(** Whatever the input, the result of [NormalizePath] begins with a slash. *)
Lemma NormalizePath_leading_slash (path : string) :
  HasPrefix (NormalizePath path) "/" = true.
Proof.
  unfold NormalizePath. destruct (String.eqb path EmptyString); [done|].
  apply collapse_slashes_leading.
  set (p1 := if negb (HasPrefix path "/") then "/" +:+ path else path).
  assert (HasPrefix p1 "/" = true) as Hp1.
  { unfold p1. destruct (HasPrefix path "/") eqn:Hp; [done|].
    cbn [negb]. unfold HasPrefix. change ("/" +:+ path) with (String "/"%char path).
    by rewrite prefix_slash. }
  destruct (negb (String.eqb p1 "/") && HasSuffix p1 "/") eqn:Htrim; [|done].
  apply andb_true_iff in Htrim as [Hne Hsuf].
  unfold TrimSuffix. rewrite Hsuf.
  destruct p1 as [|a [|b rest]]; [done | |].
  - unfold HasPrefix in Hp1. rewrite prefix_slash in Hp1.
    apply Ascii.eqb_eq in Hp1 as <-. done.
  - unfold HasPrefix in *. rewrite prefix_slash in Hp1.
    cbn [String.length Nat.sub upto String.substring]. by rewrite prefix_slash.
Qed.

(** When the pattern and the path differ and do not have the same number
    of pieces, [MatchPath] answers before it looks at any segment. *)
Lemma MatchPath_length_mismatch (pattern path : string) :
  pattern ≠ path →
  length (Split pattern "/") ≠ length (Split path "/") →
  MatchPath pattern path = false.
Proof.
  intros Hne Hlen. unfold MatchPath.
  destruct (String.eqb_spec pattern path) as [?|_]; [done|].
  by destruct (Nat.eqb_spec (length (Split pattern "/")) (length (Split path "/"))).
Qed.

Lemma star_segment (name : string) :
  HasPrefix ("*" +:+ name) ":" = false
  ∧ HasPrefix ("*" +:+ name) "*" = true
  ∧ from 1 ("*" +:+ name) = name.
Proof.
  unfold HasPrefix. change ("*" +:+ name) with (String "*"%char name).
  rewrite !prefix_cons, prefix_empty, from_1_cons. done.
Qed.

(** The loop of [ExtractParams] on a pattern whose last piece is the first
    one that starts with a star: the catch-all name is bound to the pieces
    of the path from that position on, joined by slashes. *)
Lemma ExtractParams_loop_catch_all (P Q : list string) (name : string) (i : nat)
    (params : gmap string string) :
  Forall (λ part, HasPrefix part "*" = false) P →
  ExtractParams_loop (P ++ ["*" +:+ name]) Q i params !! name
  = Some (Join (drop (i + length P) Q) "/").
Proof.
  intros HP. revert i params.
  induction HP as [|part P Hpart _ IH]; intros i params.
  - destruct (star_segment name) as (H1 & H2 & H3).
    cbn [app ExtractParams_loop]. rewrite H1, H2, H3, Nat.add_0_r.
    apply lookup_insert_eq.
  - cbn [app ExtractParams_loop length]. rewrite Hpart, Nat.add_succ_r.
    destruct (HasPrefix part ":"); apply IH.
Qed.

Lemma ExtractParams_loop_static (P Q : list string) (name : string) (i : nat)
    (params : gmap string string) :
  Forall (λ part, HasPrefix part "*" = false) P →
  Forall (λ part, HasPrefix part ":" = false) P →
  ExtractParams_loop (P ++ ["*" +:+ name]) Q i params
  = <[name := Join (drop (i + length P) Q) "/"]> params.
Proof.
  intros HP. revert i.
  induction HP as [|part P Hpart _ IH]; intros i HP'.
  - destruct (star_segment name) as (H1 & H2 & H3).
    cbn [app ExtractParams_loop]. by rewrite H1, H2, H3, Nat.add_0_r.
  - apply Forall_cons in HP' as [Hcolon HP'].
    cbn [app ExtractParams_loop length].
    rewrite Hpart, Hcolon, Nat.add_succ_r. by apply IH.
Qed.

(** The pieces of [pre/*name] and of [pre'/rest]. *)
Lemma catch_all_pieces (pre pre' name rest : string) :
  Contains name "/" = false →
  Contains rest "/" = false →
  Split (pre +:+ "/*" +:+ name) "/" = Split pre "/" ++ ["*" +:+ name]
  ∧ Split (pre' +:+ "/" +:+ rest) "/" = Split pre' "/" ++ [rest].
Proof.
  intros Hname Hrest. split.
  - change (pre +:+ "/*" +:+ name) with (pre +:+ "/" +:+ ("*" +:+ name)).
    rewrite Split_slash_app. f_equal. apply Split_no_slash.
    change ("*" +:+ name) with (String "*"%char name).
    by rewrite Contains_cons, prefix_slash.
  - rewrite Split_slash_app. f_equal. by apply Split_no_slash.
Qed.

End RouteUtilsFacts.

(** ** Claims about [RouteUtils] *)

Module RouteUtilsClaims.
Import GoStrings GoStringsFacts RouteUtils RouteUtilsFacts.

(** [ExtractParams] only looks at a path that has as many slash-separated
    pieces as the pattern.  For a pattern [pre/*name] and such a path
    [pre'/rest] (so [rest] is one piece), where no piece of [pre] starts
    with a star, the map binds [name] to [rest].  When [pre] has no
    parameter piece either, that is the whole map. *)
Lemma ExtractParams_one_piece (pre pre' name rest : string) :
  Contains name "/" = false →
  Contains rest "/" = false →
  length (Split pre "/") = length (Split pre' "/") →
  Forall (λ part, HasPrefix part "*" = false) (Split pre "/") →
  ExtractParams (pre +:+ "/*" +:+ name) (pre' +:+ "/" +:+ rest) !! name = Some rest
  ∧ (Forall (λ part, HasPrefix part ":" = false) (Split pre "/") →
     ExtractParams (pre +:+ "/*" +:+ name) (pre' +:+ "/" +:+ rest)
     = {[ name := rest ]}).
Proof.
  intros Hname Hrest Hlen Hstar.
  destruct (catch_all_pieces pre pre' name rest Hname Hrest) as [HP HQ].
  unfold ExtractParams. rewrite HP, HQ, !length_app, Hlen, Nat.eqb_refl.
  cbn [negb].
  assert (drop (0 + length (Split pre "/")) (Split pre' "/" ++ [rest]) = [rest])
    as Hdrop by (rewrite Hlen; apply drop_app_length).
  split.
  - by rewrite ExtractParams_loop_catch_all, Hdrop.
  - intros Hcolon. by rewrite ExtractParams_loop_static, Hdrop.
Qed.

(** When the pattern and the path do not have the same number of pieces,
    [ExtractParams] returns the map as [make] left it: the guard comes
    before the loop that handles the catch-all piece. *)
Lemma ExtractParams_length_mismatch (pattern path : string) :
  length (Split pattern "/") ≠ length (Split path "/") →
  ExtractParams pattern path = ∅.
Proof.
  intros Hne. unfold ExtractParams.
  by destruct (Nat.eqb_spec (length (Split pattern "/")) (length (Split path "/"))).
Qed.

(** C2: the catch-all of [ExtractParams] does not reach a remainder of more
    than one segment.  On the example of the claim, and on the input for
    which the package's own test ([TestRouteUtils_ExtractParams]) expects a
    binding of [filepath], the pattern has three pieces and the path four:
    the function returns the empty map and binds nothing to the name. *)
Theorem ExtractParams_catch_all_nested :
  ExtractParams "/static/*filepath" "/static/a/b.css" = ∅
  ∧ ExtractParams "/static/*filepath" "/static/a/b.css" !! "filepath" = None
  ∧ ExtractParams "/static/*filepath" "/static/css/main.css" = ∅
  ∧ ExtractParams "/static/*filepath" "/static/css/main.css" !! "filepath" = None.
Proof.
  assert (ExtractParams "/static/*filepath" "/static/a/b.css" = ∅) as Ha
    by (apply ExtractParams_length_mismatch; vm_compute; lia).
  assert (ExtractParams "/static/*filepath" "/static/css/main.css" = ∅) as Hb
    by (apply ExtractParams_length_mismatch; vm_compute; lia).
  rewrite Ha, Hb. by repeat split.
Qed.

(** C9: the catch-all of [MatchPath] does not reach a remainder of more
    than one segment.  On the two inputs of the package's own test
    ([TestRouteUtils_MatchPath] expects [true] for both) it answers
    [false]. *)
Theorem MatchPath_catch_all_nested :
  MatchPath "/static/*filepath" "/static/css/main.css" = false
  ∧ MatchPath "/*all" "/anything/here" = false.
Proof. split; reflexivity. Qed.

(** C10: [NormalizePath] trims one trailing slash before it collapses the
    runs of slashes, so a path that ends in two slashes keeps one; the
    result is not a fixed point of [NormalizePath]. *)
Theorem NormalizePath_trailing_slashes :
  NormalizePath "/a//" = "/a/"
  ∧ NormalizePath (NormalizePath "/a//") = "/a"
  ∧ NormalizePath (NormalizePath "/a//") ≠ NormalizePath "/a//".
Proof. split; [|split]; [reflexivity | reflexivity | discriminate]. Qed.

End RouteUtilsClaims.

(** ** Running handlers *)

Module contextFacts.
Import context.

Lemma run_Return fuel err c : run fuel (Return err) c = Some (err, c).
Proof. by destruct fuel. Qed.

Lemma run_WriterDo fuel w k c :
  run fuel (WriterDo w k) c = run fuel k (writer_call w c).
Proof. by destruct fuel. Qed.

Lemma run_SetNext fuel nxt k c :
  run fuel (SetNext nxt k) c = run fuel k (set_next nxt c).
Proof. by destruct fuel. Qed.

Lemma run_Param fuel name k c :
  run fuel (Param name k) c
  = run fuel (k (default EmptyString (Params c !! name))) c.
Proof. by destruct fuel. Qed.

Lemma run_Next_nil fuel k c :
  next c = None → run fuel (Next k) c = run fuel (k None) c.
Proof. intros H. destruct fuel; cbn; by rewrite H. Qed.

(** [c.Next()] calls the installed continuation, then the caller goes on
    with the error it returned. *)
Lemma run_Next fuel k c nxt :
  next c = Some nxt →
  run (S fuel) (Next k) c
  = match run fuel nxt c with
    | None => None
    | Some (err, c') => run (S fuel) (k err) c'
    end.
Proof. intros H. cbn. by rewrite H. Qed.

(** More fuel does not change a result. *)
Lemma run_mono fuel fuel' h c r :
  (fuel ≤ fuel')%nat → run fuel h c = Some r → run fuel' h c = Some r.
Proof.
  revert fuel' h c r. induction fuel as [|fuel IHf]; intros fuel' h.
  - induction h as [err|w k IH|nxt _ k IH|k IH|name k IH]; intros c r Hle.
    + by rewrite !run_Return.
    + rewrite !run_WriterDo. by apply IH.
    + rewrite !run_SetNext. by apply IH.
    + destruct (next c) as [nxt|] eqn:Hn.
      * cbn. by rewrite Hn.
      * rewrite !run_Next_nil by done. by apply IH.
    + rewrite !run_Param. by apply IH.
  - induction h as [err|w k IH|nxt _ k IH|k IH|name k IH]; intros c r Hle.
    + by rewrite !run_Return.
    + rewrite !run_WriterDo. by apply IH.
    + rewrite !run_SetNext. by apply IH.
    + destruct (next c) as [nxt|] eqn:Hn.
      * destruct fuel' as [|fuel']; [lia|].
        rewrite !(run_Next _ _ _ nxt) by done.
        destruct (run fuel nxt c) as [[err c']|] eqn:Hr; [|done].
        rewrite (IHf fuel' nxt c (err, c')) by (done || lia).
        by apply IH.
      * rewrite !run_Next_nil by done. by apply IH.
    + rewrite !run_Param. by apply IH.
Qed.

End contextFacts.

(** ** The middleware chain *)

Module MiddlewareChainFacts.
Import context contextFacts MiddlewareChain Stages.

Lemma chain_loop_foldr (mws : list HandlerFunc) (n : nat) (result : HandlerFunc) :
  (n ≤ length mws)%nat →
  chain_loop mws n result = foldr closure result (take n mws).
Proof.
  revert result. induction n as [|i IH]; intros result Hn; [done|].
  destruct (lookup_lt_is_Some_2 mws i) as [mw Hmw]; [lia|].
  cbn [chain_loop]. rewrite Hmw, IH by lia.
  by rewrite (take_S_r _ _ _ Hmw), foldr_app.
Qed.

(** The loop of [Build] is a right fold of [closure] over the middleware. *)
Lemma Build_foldr (mws : list HandlerFunc) (h : HandlerFunc) :
  Build (mkChain mws) h = foldr closure h mws.
Proof.
  unfold Build. cbn [middleware].
  by rewrite chain_loop_foldr, firstn_all.
Qed.

Lemma Build_cons (mw : HandlerFunc) (mws : list HandlerFunc) (h : HandlerFunc) :
  Build (mkChain (mw :: mws)) h = closure mw (Build (mkChain mws) h).
Proof. by rewrite !Build_foldr. Qed.

Lemma run_writes fuel calls k c :
  run fuel (writes calls k) c = run fuel k (log calls c).
Proof.
  revert c. induction calls as [|w calls IH]; intros c.
  - unfold log. rewrite app_nil_r. by destruct c.
  - cbn [writes foldr]. rewrite run_WriterDo. fold (writes calls k).
    rewrite IH. unfold log, writer_call. cbn.
    by rewrite <- app_assoc.
Qed.

Lemma log_log calls1 calls2 c : log calls2 (log calls1 c) = log (calls1 ++ calls2) c.
Proof. unfold log. cbn. by rewrite app_assoc. Qed.

Lemma at_terminal_cons pre post stages h c :
  at_terminal ((pre, post) :: stages) h c
  = at_terminal stages h
      (log pre (set_next (Build (mkChain (map around stages)) h) c)).
Proof.
  unfold at_terminal, log, set_next. cbn.
  rewrite <- app_assoc. by destruct stages.
Qed.

(** The order of the work along a chain of middleware of the shape
    [around]. *)
Lemma Build_around_order stages h fuel c err c' :
  run fuel h (at_terminal stages h c) = Some (err, c') →
  run (length stages + fuel) (Build (mkChain (map around stages)) h) c
  = Some (err, log (concat (reverse (map snd stages))) c').
Proof.
  revert c. induction stages as [|[pre post] stages IH]; intros c Hh.
  - cbn. unfold at_terminal in Hh. cbn in Hh. rewrite app_nil_r in Hh.
    unfold log. cbn. rewrite app_nil_r.
    destruct c, c'. exact Hh.
  - rewrite at_terminal_cons in Hh. apply IH in Hh.
    cbn [map length Nat.add]. rewrite Build_cons.
    unfold closure. rewrite run_SetNext.
    unfold around at 1. cbn [fst snd]. rewrite run_writes.
    rewrite (run_Next _ _ _ (Build (mkChain (map around stages)) h)) by done.
    rewrite Hh, run_writes, run_Return, log_log.
    rewrite reverse_cons, concat_app. cbn [concat]. by rewrite app_nil_r.
Qed.

(** The context has one continuation pointer, and every stage that is
    entered overwrites it.  A middleware that calls [c.Next()] a second time
    therefore does not run the next middleware again but the handler that
    the inner stages left installed (the spec leaves a second call
    undefined and allows at most one). *)
Remark Next_twice :
  let twice := Next (λ _, Next Return) in
  let m2 := around ([CallWrite "m2"], []) in
  let h := WriterDo (CallWrite "h") (Return None) in
  Writer <$> (snd <$> run 3 (Build (mkChain [twice; m2]) h) (mkContext ∅ [] None None))
  = Some [CallWrite "m2"; CallWrite "h"; CallWrite "h"].
Proof. reflexivity. Qed.

End MiddlewareChainFacts.

(** ** Claims about the middleware chain *)

Module MiddlewareChainClaims.
Import context contextFacts MiddlewareChain Stages MiddlewareChainFacts.

(** C5.  Let [stage i] be the composed handler from [m(i+1)] on (so
    [stage 0] is the handler [H] that [Build] returns, and [stage n] is the
    terminal handler [h]).
    - Calling [stage i] runs [m(i+1)] in a context whose continuation is
      [stage (i+1)]; for [i = 0]: calling [H] runs [m1].
    - A call of [c.Next()] made while the continuation is [stage (i+1)]
      runs [m(i+2)] (with continuation [stage (i+2)]) to its end and hands
      its error back to the caller; when the continuation is [stage n],
      it runs [h].
    - Along a chain of middleware that each work, call [c.Next()] once and
      work again, the writer receives the pre-[Next] work of [m1..mn] in
      that order, then what [h] writes, then the post-[Next] work of
      [mn..m1]. *)
Theorem Build_control_flow :
  (∀ mws h, stage mws h 0 = Build (mkChain mws) h ∧ stage mws h (length mws) = h)
  ∧ (∀ mws h i mi fuel c,
       mws !! i = Some mi →
       run fuel (stage mws h i) c = run fuel mi (set_next (stage mws h (S i)) c))
  ∧ (∀ mws h i mj fuel c k,
       mws !! S i = Some mj →
       next c = Some (stage mws h (S i)) →
       run (S fuel) (Next k) c
       = match run fuel mj (set_next (stage mws h (S (S i))) c) with
         | None => None
         | Some (err, c') => run (S fuel) (k err) c'
         end)
  ∧ (∀ mws h fuel c k,
       next c = Some (stage mws h (length mws)) →
       run (S fuel) (Next k) c
       = match run fuel h c with
         | None => None
         | Some (err, c') => run (S fuel) (k err) c'
         end)
  ∧ (∀ stages h fuel c err c',
       run fuel h (at_terminal stages h c) = Some (err, c') →
       run (length stages + fuel) (Build (mkChain (map around stages)) h) c
       = Some (err, log (concat (reverse (map snd stages))) c')).
Proof.
  assert (Hstage : ∀ mws h i mi fuel c,
       mws !! i = Some mi →
       run fuel (stage mws h i) c = run fuel mi (set_next (stage mws h (S i)) c)).
  { intros mws h i mi fuel c Hi. unfold stage.
    rewrite (drop_S _ _ _ Hi), Build_cons. unfold closure.
    by rewrite run_SetNext. }
  assert (Hlast : ∀ mws h, stage mws h (length mws) = h).
  { intros mws h. unfold stage. by rewrite drop_all. }
  split; [|split; [|split; [|split]]].
  - intros mws h. split; [done | apply Hlast].
  - exact Hstage.
  - intros mws h i mj fuel c k Hj Hn.
    by rewrite (run_Next _ _ _ _ Hn), (Hstage _ _ _ _ _ _ Hj).
  - intros mws h fuel c k Hn.
    by rewrite (run_Next _ _ _ _ Hn), Hlast.
  - intros. by apply Build_around_order.
Qed.

Lemma Build_control_flow_witness :
  let mws := map around Examples.test_stages in
  let h := Examples.test_handler in
  let m2 := around ([CallWrite "mw2-start"], [CallWrite "mw2-end"]) in
  run 2 (Build (mkChain mws) h) Examples.c0
  = Some (None,
          mkContext ∅
            [ CallWrite "mw1-start"; CallWrite "mw2-start"; CallWrite "handler";
              CallWrite "mw2-end"; CallWrite "mw1-end" ]
            (Some h) None)
  ∧ run 2 (stage mws h 1) Examples.c0 = run 2 m2 (set_next h Examples.c0)
  ∧ run 2 (Next Return) (set_next (stage mws h 1) Examples.c0)
    = Some (None,
            mkContext ∅
              [CallWrite "mw2-start"; CallWrite "handler"; CallWrite "mw2-end"]
              (Some h) None)
  ∧ run 1 (Next Return) (set_next (stage mws h 2) Examples.c0)
    = Some (None, mkContext ∅ [CallWrite "handler"] (Some h) None).
Proof.
  intros mws h m2.
  destruct Build_control_flow as (_ & Hstage & Hnext & Hlast & Horder).
  split; [|split; [|split]].
  - apply (Horder Examples.test_stages h 0%nat Examples.c0 None
             (mkContext ∅
                [CallWrite "mw1-start"; CallWrite "mw2-start"; CallWrite "handler"]
                (Some h) None)).
    reflexivity.
  - apply (Hstage mws h 1%nat). reflexivity.
  - rewrite (Hnext mws h 0%nat m2); reflexivity.
  - rewrite (Hlast mws h); reflexivity.
Defined.

(** C6.  Folding [m1..mk] over the handler obtained by folding
    [m(k+1)..mn] over [h] behaves as folding the whole list over [h]: on
    every context and with every amount of fuel the two handlers give the
    same result. *)
Theorem Build_split (mws : list context.HandlerFunc) (k : nat)
    (h : context.HandlerFunc) (fuel : nat) (c : context.Context) :
  run fuel (Build (mkChain (take k mws)) (Build (mkChain (drop k mws)) h)) c
  = run fuel (Build (mkChain mws) h) c.
Proof. by rewrite !Build_foldr, <- foldr_app, take_drop. Qed.

End MiddlewareChainClaims.

(** ** The router *)

Module RouterFacts.
Import context contextFacts MiddlewareChain Router.

Section WithTrie.
Context {node : Type} {trie : Trie node}.

(** The scan of the other methods' trees finds a handler exactly when one
    of them has one. *)
Lemma other_method_matches_spec (r : Router node) (method path : string) :
  other_method_matches r method path = true
  ↔ ∃ m root handle params tsr,
      m ≠ method ∧ trees r !! m = Some root
      ∧ getValue root path = (Some handle, params, tsr).
Proof.
  unfold other_method_matches. rewrite existsb_exists. split.
  - intros [[m root] [Hin Hm]].
    apply list_elem_of_In, elem_of_map_to_list in Hin.
    apply andb_true_iff in Hm as [Hne Hv].
    destruct (getValue root path) as [[[handle|] params] tsr] eqn:Hg; [|done].
    exists m, root, handle, params, tsr. split; [|done].
    intros ->. by rewrite String.eqb_refl in Hne.
  - intros (m & root & handle & params & tsr & Hne & Hm & Hg).
    exists (m, root). split.
    + by apply list_elem_of_In, elem_of_map_to_list.
    + rewrite Hg. by destruct (String.eqb_spec m method).
Qed.

Lemma lookup_handler_Some (r : Router node) (method path : string) root handle params tsr :
  trees r !! method = Some root →
  getValue root path = (Some handle, params, tsr) →
  lookup_handler r method path = Some (handle, params).
Proof. intros Hr Hg. unfold lookup_handler. by rewrite Hr, Hg. Qed.

Lemma lookup_handler_None (r : Router node) (method path : string) :
  (∀ root handle params tsr,
     trees r !! method = Some root →
     getValue root path ≠ (Some handle, params, tsr)) →
  lookup_handler r method path = None.
Proof.
  intros H. unfold lookup_handler.
  destruct (trees r !! method) as [root|] eqn:Hr; [|done].
  destruct (getValue root path) as [[[handle|] params] tsr] eqn:Hg; [|done].
  by destruct (H root handle params tsr).
Qed.

(** Dispatch never reads the two custom handlers. *)
Lemma ServeHTTP_ignores_custom_handlers fuel (r : Router node) req c nf mna :
  ServeHTTP fuel (SetMethodNotAllowedHandler (SetNotFoundHandler r nf) mna) req c
  = ServeHTTP fuel r req c.
Proof. done. Qed.

Lemma bad_path_spec (path : string) :
  bad_path path = false ↔ ∃ rest, path = String "/" rest.
Proof.
  unfold bad_path. destruct path as [|a rest]; cbn.
  - split; [done | by intros [? ?]].
  - destruct (Ascii.eqb_spec a "/") as [->|Hne]; cbn.
    + split; [by exists rest | done].
    + split; [done | intros [? [=]]; done].
Qed.

End WithTrie.

End RouterFacts.

(** ** Claims about the router *)

Module RouterClaims.
Import context contextFacts MiddlewareChain Router RouterFacts Examples.

Section WithTrie.
Context {node : Type} {trie : Trie node}.

(** C1.  Dispatch of a request [(method, path)].
    - If the tree of [method] has a handler for [path], the parameters that
      the lookup extracted are bound into the context and the handler is
      called on it; without an error the context it leaves is the result
      (with an error, the context's error handler is called, if any).
    - Otherwise, if the tree of another method has a handler for [path],
      the writer receives status 405 and the body [Method Not Allowed].
    - Otherwise the writer receives status 404 and the body [Not Found]. *)
Theorem ServeHTTP_dispatch (fuel : nat) (r : Router node) (req : Request)
    (c : Context) :
  (∀ root handle params tsr,
     trees r !! Method req = Some root →
     getValue root (Path req) = (Some handle, params, tsr) →
     (∀ c', run fuel handle (bind_params params c) = Some (None, c') →
            ServeHTTP fuel r req c = Some c')
     ∧ (∀ err c', run fuel handle (bind_params params c) = Some (Some err, c') →
            ServeHTTP fuel r req c
            = match GetErrorHandler c' with
              | Some errorHandler => snd <$> run fuel (errorHandler err) c'
              | None => Some c'
              end))
  ∧ ((∀ root handle params tsr,
        trees r !! Method req = Some root →
        getValue root (Path req) ≠ (Some handle, params, tsr)) →
     ((∃ m root handle params tsr,
         m ≠ Method req ∧ trees r !! m = Some root
         ∧ getValue root (Path req) = (Some handle, params, tsr)) →
      ServeHTTP fuel r req c
      = Some (mkContext (Params c)
                (Writer c ++ [CallWriteHeader 405; CallWrite "Method Not Allowed"])
                (next c) (errorHandler c)))
     ∧ ((∀ m root handle params tsr,
           trees r !! m = Some root →
           getValue root (Path req) ≠ (Some handle, params, tsr)) →
        ServeHTTP fuel r req c
        = Some (mkContext (Params c)
                  (Writer c ++ [CallWriteHeader 404; CallWrite "Not Found"])
                  (next c) (errorHandler c)))).
Proof.
  split.
  - intros root handle params tsr Hr Hg.
    pose proof (lookup_handler_Some _ _ _ _ _ _ _ Hr Hg) as Hl.
    split.
    + intros c' Hrun. unfold ServeHTTP. by rewrite Hl, Hrun.
    + intros err c' Hrun. unfold ServeHTTP. rewrite Hl, Hrun.
      destruct (GetErrorHandler c') as [eh|]; [|done].
      by destruct (run fuel (eh err) c') as [[? ?]|].
  - intros Hnone. apply lookup_handler_None in Hnone. split.
    + intros Hother. apply other_method_matches_spec in Hother.
      unfold ServeHTTP. rewrite Hnone, Hother.
      unfold respond, writer_call. cbn. by rewrite <- app_assoc.
    + intros Hno.
      assert (other_method_matches r (Method req) (Path req) = false) as Hother.
      { apply not_true_is_false. intros H.
        apply other_method_matches_spec in H
          as (m & root & handle & params & tsr & _ & Hm & Hg).
        by destruct (Hno m root handle params tsr). }
      unfold ServeHTTP. rewrite Hnone, Hother.
      unfold respond, writer_call. cbn. by rewrite <- app_assoc.
Qed.

(** C8.  The three checks of [Handle].  When the method is empty, or the
    path does not begin with a slash, or the handler is nil, [Handle]
    panics with the message of the first check that fails.  When the
    method is not empty, the path begins with a slash and the handler is
    not nil, none of the checks fires: the route is added to the tree of
    the method (a fresh tree when the method has none), with the handler
    composed with the middleware, and the outcome is that of [addRoute]. *)
Theorem Handle_checks (r : Router node) (method path : string)
    (handler : option HandlerFunc) (mws : list HandlerFunc) :
  (method = EmptyString ∨ (∀ rest, path ≠ String "/" rest) ∨ handler = None →
   ∃ msg, Handle r method path handler mws = Panic msg
          ∧ msg ∈ [ "method must not be empty";
                    "path must begin with '/' in path '" +:+ path +:+ "'";
                    "handler must not be nil" ])
  ∧ (∀ rest h,
       method ≠ EmptyString → path = String "/" rest → handler = Some h →
       Handle r method path handler mws
       = match addRoute (default new_node (trees r !! method)) path
                 (Build (mkChain mws) h) with
         | Panic msg => Panic msg
         | Done root =>
             Done (mkRouter (<[method := root]> (trees r))
                     (notFoundHandler r) (methodNotAllowedHandler r))
         end).
Proof.
  split.
  - intros Hbad. unfold Handle.
    destruct (String.eqb_spec method EmptyString) as [->|Hm].
    { eexists. split; [done | repeat constructor]. }
    destruct (bad_path path) eqn:Hp.
    { eexists. split; [done | repeat constructor]. }
    apply bad_path_spec in Hp as [rest ->].
    destruct handler as [h|].
    { destruct Hbad as [?|[Hp|?]]; [done | by destruct (Hp rest) | done]. }
    eexists. split; [done | repeat constructor].
  - intros rest h Hm -> ->. unfold Handle.
    destruct (String.eqb_spec method EmptyString) as [?|_]; [done|].
    assert (bad_path (String "/" rest) = false) as ->
      by (apply bad_path_spec; eauto).
    unfold Build. cbn [middleware].
    by destruct (trees r !! method).
Qed.

End WithTrie.

Import Table.

Lemma ServeHTTP_dispatch_witness :
  ServeHTTP 1 example_router (mkRequest "GET" "/exists") c0
  = Some (respond 200 "ok" c0)
  ∧ ServeHTTP 1 example_router (mkRequest "GET" "/users/42") c0
    = Some (respond 200 "42" (SetParams {[ "id" := "42" ]} c0))
  ∧ ServeHTTP 1 example_router (mkRequest "GET" "/fail") c_err
    = Some (respond 500 "boom" c_err)
  ∧ ServeHTTP 1 example_router (mkRequest "POST" "/exists") c0
    = Some (respond 405 "Method Not Allowed" c0)
  ∧ ServeHTTP 1 example_router (mkRequest "GET" "/nope") c0
    = Some (respond 404 "Not Found" c0).
Proof.
  split; [|split; [|split; [|split]]].
  - destruct (ServeHTTP_dispatch 1 example_router (mkRequest "GET" "/exists") c0)
      as [Hfound _].
    destruct (Hfound example_table (String_ 200 "ok") None false) as [Hok _];
      [reflexivity | reflexivity |].
    apply Hok. reflexivity.
  - destruct (ServeHTTP_dispatch 1 example_router (mkRequest "GET" "/users/42") c0)
      as [Hfound _].
    destruct (Hfound example_table echo_id (Some {[ "id" := "42" ]}) false)
      as [Hok _]; [reflexivity | reflexivity |].
    apply Hok. reflexivity.
  - destruct (ServeHTTP_dispatch 1 example_router (mkRequest "GET" "/fail") c_err)
      as [Hfound _].
    destruct (Hfound example_table failing None false) as [_ Herr];
      [reflexivity | reflexivity |].
    rewrite (Herr "boom" c_err); reflexivity.
  - destruct (ServeHTTP_dispatch 1 example_router (mkRequest "POST" "/exists") c0)
      as [_ Hmiss].
    destruct Hmiss as [H405 _].
    + intros root handle params tsr Hroot. vm_compute in Hroot. discriminate.
    + apply H405.
      exists "GET", example_table, (String_ 200 "ok"), None, false.
      split; [discriminate | split; reflexivity].
  - destruct (ServeHTTP_dispatch 1 example_router (mkRequest "GET" "/nope") c0)
      as [_ Hmiss].
    destruct Hmiss as [_ H404].
    + intros root handle params tsr Hroot.
      unfold example_router in Hroot. cbn [trees Method] in Hroot.
      apply lookup_singleton_Some in Hroot as [_ <-]. discriminate.
    + apply H404.
      intros m root handle params tsr Hroot.
      unfold example_router in Hroot. cbn [trees] in Hroot.
      apply lookup_singleton_Some in Hroot as [_ <-]. discriminate.
Defined.

Lemma Handle_checks_witness :
  (∃ msg, Handle (New (node := Table.node)) EmptyString "/t" (Some (String_ 200 "ok")) []
          = Panic msg)
  ∧ (∃ msg, Handle (New (node := Table.node)) "GET" "t" (Some (String_ 200 "ok")) []
            = Panic msg)
  ∧ (∃ msg, Handle (New (node := Table.node)) "GET" "/t" None [] = Panic msg)
  ∧ Handle (New (node := Table.node)) "GET" "/t" (Some (String_ 200 "ok")) []
    = Done (mkRouter {[ "GET" := [("/t", String_ 200 "ok")] ]} None None).
Proof.
  split; [|split; [|split]].
  - destruct (Handle_checks (New (node := Table.node)) EmptyString "/t"
                (Some (String_ 200 "ok")) []) as [Hbad _].
    destruct Hbad as (msg & Hmsg & _); [by left | by exists msg].
  - destruct (Handle_checks (New (node := Table.node)) "GET" "t"
                (Some (String_ 200 "ok")) []) as [Hbad _].
    destruct Hbad as (msg & Hmsg & _); [right; left; discriminate | by exists msg].
  - destruct (Handle_checks (New (node := Table.node)) "GET" "/t" None [])
      as [Hbad _].
    destruct Hbad as (msg & Hmsg & _); [by right; right | by exists msg].
  - destruct (Handle_checks (New (node := Table.node)) "GET" "/t"
                (Some (String_ 200 "ok")) []) as [_ Hgood].
    rewrite (Hgood "t" (String_ 200 "ok"));
      [reflexivity | discriminate | reflexivity | reflexivity].
Defined.

(** C3.  [SetNotFoundHandler] and [SetMethodNotAllowedHandler] store the
    custom handlers, and [ServeHTTP] does not consult them.  With a custom
    404 handler installed, a request for a path that no tree has gets the
    default response; with a custom 405 handler installed, a request for a
    path registered under another method gets the default response. *)
Theorem ServeHTTP_custom_handlers_unused :
  ServeHTTP 1
    (SetNotFoundHandler (New (node := Table.node)) (Some custom_not_found))
    (mkRequest "GET" "/nope") c0
  = Some (respond 404 "Not Found" c0)
  ∧ run 1 custom_not_found c0 = Some (None, respond 404 "no such page" c0)
  ∧ ∃ r : Router Table.node,
      Handle New "GET" "/exists" (Some (String_ 200 "ok")) [] = Done r
      ∧ ServeHTTP 1 (SetMethodNotAllowedHandler r (Some custom_not_allowed))
          (mkRequest "POST" "/exists") c0
        = Some (respond 405 "Method Not Allowed" c0)
      ∧ run 1 custom_not_allowed c0 = Some (None, respond 405 "wrong method" c0).
Proof.
  split; [reflexivity|]. split; [reflexivity|].
  eexists. split; [reflexivity|]. split; [vm_compute; reflexivity | reflexivity].
Qed.

End RouterClaims.

(** ** Slices *)

Module slicesFacts.
Import context slices.

(** [append] returns a well-formed slice whose elements are those of [s]
    followed by [xs], whether it writes in place or allocates. *)
Lemma append_elems (heap : Heap) (s : slice) (xs : list HandlerFunc) :
  valid heap s = true →
  elems (snd (append heap s xs)) (fst (append heap s xs)) = elems heap s ++ xs
  ∧ valid (snd (append heap s xs)) (fst (append heap s xs)) = true.
Proof.
  unfold valid, append, elems, cells. intros Hv.
  destruct (Nat.leb_spec (len s + length xs) (cap s)) as [Hcap|Hcap].
  - destruct (array s) as [a|] eqn:Ha.
    + destruct (heap !! a) as [cs|] eqn:Hcs; [|done].
      apply andb_true_iff in Hv as [Hlen Hcs_cap].
      apply Nat.leb_le in Hlen. apply Nat.leb_le in Hcs_cap.
      cbn [fst snd array len cap]. rewrite lookup_insert_eq.
      cbn [default from_option id].
      assert (length (take (len s) cs) = len s) as Htake
        by (rewrite length_take; lia).
      split.
      * rewrite app_assoc. apply take_app_length'.
        rewrite length_app, Htake. lia.
      * apply andb_true_iff. split; apply Nat.leb_le.
        -- rewrite !length_app, Htake. lia.
        -- rewrite !length_app, Htake, length_drop. lia.
    + apply andb_true_iff in Hv as [Hlen Hc].
      apply Nat.eqb_eq in Hlen. apply Nat.eqb_eq in Hc.
      cbn [fst snd]. rewrite Ha, Hlen, Hc.
      assert (xs = []) as -> by (apply length_zero_iff_nil; lia).
      done.
  - cbn [fst snd array len cap]. rewrite lookup_insert_eq.
    cbn [default from_option id].
    assert (length (take (len s)
              match array s with
              | Some a => default [] (heap !! a)
              | None => []
              end) = len s) as Htake.
    { rewrite length_take. destruct (array s) as [a|].
      - destruct (heap !! a) as [cs|]; [|done].
        apply andb_true_iff in Hv as [Hlen _]. apply Nat.leb_le in Hlen.
        cbn [default from_option id]. lia.
      - apply andb_true_iff in Hv as [Hlen _]. apply Nat.eqb_eq in Hlen.
        rewrite Hlen. done. }
    split.
    + apply take_ge. rewrite length_app, Htake. lia.
    + apply andb_true_iff. split; apply Nat.leb_le.
      * rewrite length_app, Htake. lia.
      * rewrite length_app, Htake. unfold growcap. lia.
Qed.

(** Two slices obtained by appending to the same slice with spare capacity
    share its backing array: the second [append] overwrites the element that
    the first one added. *)
Remark append_shares_array :
  let s := mkSlice (Some 1%nat) 2 4 in
  let heap : Heap := {[ 1%nat := [Return None; Return None] ]} in
  let '(s1, heap1) := append heap s [Return (Some "first")] in
  let '(s2, heap2) := append heap1 s [Return (Some "second")] in
  elems heap1 s1 = [Return None; Return None; Return (Some "first")]
  ∧ elems heap2 s1 = [Return None; Return None; Return (Some "second")]
  ∧ elems heap2 s2 = [Return None; Return None; Return (Some "second")].
Proof. by vm_compute. Qed.

End slicesFacts.

(** ** Claims about route groups *)

Module GroupClaims.
Import context GoStringsFacts slices slicesFacts Router Group.

Section WithTrie.
Context {node : Type} {trie : Trie node}.

(** C7.  Let [G] be the elements of the group's middleware slice and [p] its
    prefix.
    - Registering [(method, subpath, handler, extra...)] through the group
      has the outcome, panics included, of registering
      [(method, p + subpath, handler, G ++ extra)] on the router.
    - [g.Group(subprefix, mw...)] returns a group whose prefix is
      [p + subprefix] and whose middleware slice has the elements [G ++ mw];
      the call involves neither the router nor its trees ([Group_] has no
      router among its arguments or results).
    - A registration through that sub-group reaches the router with both
      prefixes and both middleware lists concatenated.
    This holds whether [append] writes into the spare capacity of the group's
    backing array or allocates a new one. *)
Theorem Group_registration (heap : Heap) (g : Group) (r : Router node)
    (method sub : string) (handler : option HandlerFunc) (extra : slice)
    (subprefix : string) (mw : slice) :
  valid heap (middleware g) = true →
  fst (handle heap g r method sub handler extra)
  = Handle r method (prefix g +:+ sub) handler
      (elems heap (middleware g) ++ elems heap extra)
  ∧ prefix (fst (Group_ heap g subprefix mw)) = prefix g +:+ subprefix
  ∧ elems (snd (Group_ heap g subprefix mw))
      (middleware (fst (Group_ heap g subprefix mw)))
    = elems heap (middleware g) ++ elems heap mw
  ∧ fst (handle (snd (Group_ heap g subprefix mw))
           (fst (Group_ heap g subprefix mw)) r method sub handler extra)
    = Handle r method (prefix g +:+ subprefix +:+ sub) handler
        (elems heap (middleware g) ++ elems heap mw
         ++ elems (snd (Group_ heap g subprefix mw)) extra).
Proof.
  intros Hv.
  assert (Hhandle : ∀ heap g path extra,
    valid heap (middleware g) = true →
    fst (handle heap g r method path handler extra)
    = Handle r method (prefix g +:+ path) handler
        (elems heap (middleware g) ++ elems heap extra)).
  { intros heap0 g0 path extra0 Hv0. unfold handle.
    destruct (append_elems heap0 (middleware g0) (elems heap0 extra0) Hv0)
      as [Hel _].
    destruct (append heap0 (middleware g0) (elems heap0 extra0)) as [all heap1].
    cbn [fst snd] in *. by rewrite Hel. }
  destruct (append_elems heap (middleware g) (elems heap mw) Hv) as [Hel Hv'].
  split; [by apply Hhandle|].
  unfold Group_ in *.
  destruct (append heap (middleware g) (elems heap mw)) as [all heap1].
  cbn [fst snd prefix middleware] in *.
  split; [done|]. split; [done|].
  rewrite Hhandle by done. cbn [prefix middleware].
  by rewrite append_assoc, Hel, <- app_assoc.
Qed.

End WithTrie.

Import Table Examples.

Lemma Group_registration_witness :
  (fst (handle example_heap example_group
          (New (node := Table.node)) "GET" "/users" (Some (String_ 200 "ok"))
          example_extra)
   = Handle New "GET" "/api/users" (Some (String_ 200 "ok")) [mw_a; mw_b; mw_d]
   ∧ prefix (fst (Group_ example_heap example_group "/v1" example_extra)) = "/api/v1"
   ∧ elems (snd (Group_ example_heap example_group "/v1" example_extra))
       (middleware (fst (Group_ example_heap example_group "/v1" example_extra)))
     = [mw_a; mw_b; mw_d])
  ∧ elems (snd (Group_ example_heap full_group "/v1" example_extra))
      (middleware (fst (Group_ example_heap full_group "/v1" example_extra)))
    = [mw_d; mw_d].
Proof.
  split.
  - destruct (Group_registration example_heap example_group
                (New (node := Table.node)) "GET" "/users" (Some (String_ 200 "ok"))
                example_extra "/v1" example_extra) as (H1 & H2 & H3 & _);
      [reflexivity|].
    split; [exact H1 | split; [exact H2 | exact H3]].
  - destruct (Group_registration example_heap full_group
                (New (node := Table.node)) "GET" "/users" (Some (String_ 200 "ok"))
                example_extra "/v1" example_extra) as (_ & _ & H3 & _);
      [reflexivity|].
    exact H3.
Defined.

End GroupClaims.

(** ** The response writer *)

Module responseFacts.
Import context response.

Section WithUnderlying.
Context {U : Type} {underlying : ResponseWriter U}.

(** Until the first [Write], every [WriteHeader] is forwarded and replaces
    the recorded status: [WriteHeader] does not set [written]. *)
Lemma WriteHeader_before_Write (code : Z) (w : Writer U) :
  written w = false →
  WriteHeader code w
  = mkWriter (rw_WriteHeader code (ResponseWriter_ w)) code false (size w).
Proof. intros H. unfold WriteHeader. by rewrite H. Qed.

(** After a [Write], [WriteHeader] is ignored. *)
Lemma WriteHeader_after_Write (code : Z) (data : string) (w : Writer U) :
  WriteHeader code (snd (Write data w)) = snd (Write data w).
Proof.
  unfold Write, WriteHeader.
  destruct (written w) eqn:Hw; cbn [negb].
  - destruct (rw_Write data (ResponseWriter_ w)) as [[n err] u]. cbn. by rewrite Hw.
  - by destruct (rw_Write data _) as [[n err] u].
Qed.

(** [Write] sets [written] and adds the bytes the underlying writer took. *)
Lemma Write_size (data : string) (w : Writer U) :
  Written (snd (Write data w)) = true
  ∧ Size (snd (Write data w))
    = int_wrap (Size w + fst (fst (rw_Write data
          (ResponseWriter_ (if written w then w
                            else WriteHeader (statusCode w) w))))).
Proof.
  unfold Write, WriteHeader, Written, Size.
  destruct (written w) eqn:Hw; cbn [negb].
  - destruct (rw_Write data (ResponseWriter_ w)) as [[n err] u]. by cbn.
  - cbn. by destruct (rw_Write data _) as [[n err] u].
Qed.

End WithUnderlying.

End responseFacts.

(** ** Claims about the response writer *)

Module responseClaims.
Import context response responseFacts.

(** C4.  A second [WriteHeader] is not ignored.  On a new writer,
    [WriteHeader(404)] followed by [WriteHeader(500)] leaves the recorded
    status at 500, and the underlying response writer has received both
    calls: [written] is still false after them. *)
Theorem WriteHeader_twice :
  let w := WriteHeader 500 (WriteHeader 404 (NewWriter (mkRecorder []))) in
  Status w = 500%Z
  ∧ calls (ResponseWriter_ w) = [CallWriteHeader 404; CallWriteHeader 500]
  ∧ Written w = false.
Proof. by cbn. Qed.

End responseClaims.

(* ===================================================================== *)
(** * Part III. Further properties of the code                            *)
(* ===================================================================== *)

(** ** The utility functions of the radix tree *)

Module RouterInternalsFacts.
Import GoStrings GoStringsFacts RouterInternals Bytes.

Lemma count_bytes_app (ok : ascii → bool) (s t : string) :
  count_bytes ok (s +:+ t) = (count_bytes ok s + count_bytes ok t)%nat.
Proof.
  induction s as [|c s IH]; [done|].
  change (String c s +:+ t) with (String c (s +:+ t)).
  cbn [count_bytes]. rewrite IH. lia.
Qed.

Lemma countParams_loop_spec (path : string) (n : Z) :
  countParams_loop path (n mod 256)
  = ((n + Z.of_nat (count_bytes is_marker path)) mod 256)%Z.
Proof.
  revert n. induction path as [|c rest IH]; intros n.
  - cbn. by rewrite Z.add_0_r.
  - cbn [countParams_loop count_bytes]. destruct (is_marker c).
    + unfold wrap8. rewrite Zplus_mod_idemp_l, IH. f_equal. lia.
    + rewrite IH. f_equal.
Qed.

(** [countParams] counts the [':'] and ['*'] bytes of the path in a [uint8]:
    the result is their number modulo 256, and the count of a concatenation
    is the sum of the counts modulo 256. *)
Theorem countParams_wraps (path path' : string) :
  countParams path = (Z.of_nat (count_bytes is_marker path) mod 256)%Z
  ∧ countParams (path +:+ path')
    = ((countParams path + countParams path') mod 256)%Z.
Proof.
  assert (∀ p, countParams p = (Z.of_nat (count_bytes is_marker p) mod 256)%Z) as H.
  { intros p. unfold countParams. change 0%Z with (0 mod 256)%Z.
    by rewrite countParams_loop_spec. }
  split; [apply H|].
  rewrite !H, count_bytes_app, Nat2Z.inj_add. by rewrite <- Zplus_mod.
Qed.

Lemma min_spec (a b : nat) : min a b = Nat.min a b.
Proof. unfold min. destruct (Nat.ltb_spec a b); lia. Qed.

Lemma longestCommonPrefix_loop_spec (a b : string) (max fuel i : nat) :
  (i ≤ max)%nat → (max - i ≤ fuel)%nat →
  (∀ j, (j < i)%nat → String.get j a = String.get j b) →
  let r := longestCommonPrefix_loop a b max fuel i in
  (i ≤ r)%nat ∧ (r ≤ max)%nat
  ∧ (∀ j, (j < r)%nat → String.get j a = String.get j b)
  ∧ ((r < max)%nat → String.get r a ≠ String.get r b).
Proof.
  revert i. induction fuel as [|fuel IH]; intros i Hi Hfuel Hpre;
    cbv zeta; cbn [longestCommonPrefix_loop].
  - assert (i = max) as -> by lia. repeat split; [lia | lia | done | lia].
  - destruct (Nat.ltb_spec i max) as [Hlt|Hge]; cbn [andb].
    + case_bool_decide as Heq.
      * destruct (IH (S i)) as (H1 & H2 & H3 & H4); [lia | lia | |].
        { intros j Hj. destruct (decide (j = i)) as [->|]; [done|].
          apply Hpre. lia. }
        repeat split; [lia | done | done | done].
      * repeat split; [lia | lia | done | done].
    + repeat split; [lia | lia | done | lia].
Qed.

(** [longestCommonPrefix(a, b)] is the length of the longest common prefix:
    it does not exceed either length, the two strings agree on every index
    below it, and they differ at that index unless one of them ends
    there. *)
Theorem longestCommonPrefix_spec (a b : string) :
  let r := longestCommonPrefix a b in
  (r ≤ String.length a)%nat ∧ (r ≤ String.length b)%nat
  ∧ (∀ j, (j < r)%nat → String.get j a = String.get j b)
  ∧ ((r < String.length a)%nat → (r < String.length b)%nat →
     String.get r a ≠ String.get r b).
Proof.
  unfold longestCommonPrefix.
  destruct (longestCommonPrefix_loop_spec a b
              (min (String.length a) (String.length b))
              (min (String.length a) (String.length b)) 0)
    as (_ & H2 & H3 & H4); [lia | lia | intros j Hj; lia |].
  rewrite min_spec in *.
  repeat split; [lia | lia | done |].
  intros Ha Hb. apply H4. lia.
Qed.

Lemma findWildcard_end_spec (rest : string) (end_ : nat) (valid : bool) :
  match findWildcard_end rest end_ valid with
  | (Some e, v) =>
      ∃ name after,
        rest = name +:+ String "/" after
        ∧ e = (end_ + String.length name)%nat
        ∧ Contains name "/" = false
        ∧ v = valid && negb (any_byte is_marker name)
  | (None, v) =>
      Contains rest "/" = false ∧ v = valid && negb (any_byte is_marker rest)
  end.
Proof.
  revert end_ valid. induction rest as [|c rest IH]; intros end_ valid.
  - cbn. by rewrite andb_true_r.
  - cbn [findWildcard_end]. destruct (Ascii.eqb_spec c "/") as [->|Hc].
    + exists EmptyString, rest. cbn. by rewrite Nat.add_0_r, andb_true_r.
    + specialize (IH (S end_) (if is_marker c then false else valid)).
      assert (Ascii.eqb "/" c = false) as Hc'
        by (apply Ascii.eqb_neq; congruence).
      destruct (findWildcard_end rest (S end_) _) as [[e|] v].
      * destruct IH as (name & after & -> & -> & Hname & ->).
        exists (String c name), after.
        change (String c name +:+ String "/" after)
          with (String c (name +:+ String "/" after)).
        rewrite Contains_cons, prefix_slash, Hc', Hname.
        cbn [String.length any_byte orb].
        repeat split; [lia|].
        destruct (is_marker c), valid; done.
      * destruct IH as [Hrest ->].
        rewrite Contains_cons, prefix_slash, Hc', Hrest.
        cbn [any_byte orb]. split; [done|].
        destruct (is_marker c), valid; done.
Qed.

Lemma append_empty_r (s : string) : s +:+ EmptyString = s.
Proof.
  induction s as [|c s IH]; [done|].
  change (String c s +:+ EmptyString) with (String c (s +:+ EmptyString)).
  by rewrite IH.
Qed.

Lemma upto_app_length (s t : string) : upto (String.length s) (s +:+ t) = s.
Proof.
  unfold upto. induction s as [|c s IH]; [by destruct t|].
  change (String c s +:+ t) with (String c (s +:+ t)).
  cbn [String.length String.substring]. by rewrite IH.
Qed.

Lemma findWildcard_loop_spec (suffix : string) (start : nat) :
  (any_byte is_marker suffix = false
   ∧ findWildcard_loop suffix start = (EmptyString, (-1)%Z, false))
  ∨ ∃ before c name after,
      suffix = before +:+ String c name +:+ after
      ∧ findWildcard_loop suffix start
        = (String c name, Z.of_nat (start + String.length before),
           negb (any_byte is_marker name))
      ∧ any_byte is_marker before = false
      ∧ is_marker c = true
      ∧ Contains name "/" = false
      ∧ (after = EmptyString ∨ HasPrefix after "/" = true).
Proof.
  revert start. induction suffix as [|c rest IH]; intros start; [by left|].
  cbn [findWildcard_loop any_byte]. destruct (is_marker c) eqn:Hc; cbn [negb orb].
  - right.
    pose proof (findWildcard_end_spec rest 0 true) as Hend.
    destruct (findWildcard_end rest 0 true) as [[e|] v].
    + destruct Hend as (name & after & -> & -> & Hname & ->).
      exists EmptyString, c, name, (String "/" after).
      cbn [String.length Nat.add]. rewrite Nat.add_0_r.
      split; [done|]. split.
      { assert (upto (S (String.length name)) (String c (name +:+ String "/" after))
                = String c name) as ->; [|by rewrite andb_true_l].
        change (String c (name +:+ String "/" after))
          with (String c name +:+ String "/" after).
        change (S (String.length name)) with (String.length (String c name)).
        apply upto_app_length. }
      repeat split; [done..|].
      right. unfold HasPrefix. by rewrite prefix_slash.
    + destruct Hend as [Hrest ->].
      exists EmptyString, c, rest, EmptyString.
      cbn [String.length]. rewrite Nat.add_0_r.
      split.
      { change (EmptyString +:+ String c rest +:+ EmptyString)
          with (String c (rest +:+ EmptyString)).
        by rewrite append_empty_r. }
      split; [by rewrite andb_true_l|]. repeat split; [done..|]. by left.
  - destruct (IH (S start)) as [[Hnone Hres]|Hsome].
    + left. by rewrite Hres.
    + right.
      destruct Hsome as (before & c' & name & after & -> & Hres & Hb & Hc' & Hn & Ha).
      exists (String c before), c', name, after.
      rewrite Hres. cbn [String.length any_byte]. rewrite Hc, Hb.
      split; [done|]. split; [|done].
      do 2 f_equal. lia.
Qed.

(** [findWildcard] finds the first wildcard segment.  Without a [':'] or
    ['*'] in the path it answers [("", -1, false)].  Otherwise the path is
    [before ++ wildcard ++ after], where [before] has no marker and has [i]
    bytes, the wildcard starts with a marker and runs up to the next slash
    (or the end of the path), and [valid] tells that no further marker
    occurs inside the wildcard. *)
Theorem findWildcard_spec (path : string) :
  (any_byte is_marker path = false
   ∧ findWildcard path = (EmptyString, (-1)%Z, false))
  ∨ ∃ before c name after,
      path = before +:+ String c name +:+ after
      ∧ findWildcard path
        = (String c name, Z.of_nat (String.length before),
           negb (any_byte is_marker name))
      ∧ any_byte is_marker before = false
      ∧ is_marker c = true
      ∧ Contains name "/" = false
      ∧ (after = EmptyString ∨ HasPrefix after "/" = true).
Proof. apply (findWildcard_loop_spec path 0). Qed.

End RouterInternalsFacts.

(** ** Suffixes *)

Module SuffixFacts.
Import GoStrings GoStringsFacts Bytes.

Lemma eqb_one (c d : ascii) :
  String.eqb (String c EmptyString) (String d EmptyString) = Ascii.eqb c d.
Proof. cbn. by destruct (Ascii.eqb c d). Qed.

Lemma HasSuffix_slash_cons (c : ascii) (s : string) :
  HasSuffix (String c s) "/" =
    match s with
    | EmptyString => Ascii.eqb c "/"
    | String _ _ => HasSuffix s "/"
    end.
Proof.
  unfold HasSuffix, from. destruct s as [|d s]; [apply eqb_one|].
  cbn [String.length Nat.leb Nat.sub String.substring andb].
  by rewrite !Nat.sub_0_r.
Qed.

Lemma HasSuffix_slashes_cons (c : ascii) (s : string) :
  HasSuffix (String c s) "//" =
    match s with
    | EmptyString => false
    | String d EmptyString => Ascii.eqb c "/" && Ascii.eqb d "/"
    | String _ (String _ _) => HasSuffix s "//"
    end.
Proof.
  unfold HasSuffix, from. destruct s as [|d [|e s]]; [done| |].
  - cbn. destruct (Ascii.eqb c "/"); [|done]. by destruct (Ascii.eqb d "/").
  - cbn [String.length Nat.leb Nat.sub String.substring andb].
    by rewrite ?Nat.sub_0_r.
Qed.

Lemma HasSuffix_slash_last (s : string) :
  HasSuffix s "/" = bool_decide (last_byte s = Some "/"%char).
Proof.
  induction s as [|c s IH]; [done|].
  rewrite HasSuffix_slash_cons. destruct s as [|d s].
  - cbn [last_byte]. destruct (Ascii.eqb_spec c "/") as [->|Hc].
    + by rewrite bool_decide_eq_true_2.
    + rewrite bool_decide_eq_false_2; [done | congruence].
  - by rewrite IH.
Qed.

Lemma TrimSuffix_slash_cons (c : ascii) (s : string) :
  TrimSuffix (String c s) "/" =
    match s with
    | EmptyString => if Ascii.eqb c "/" then EmptyString else String c EmptyString
    | String _ _ => String c (TrimSuffix s "/")
    end.
Proof.
  unfold TrimSuffix. rewrite HasSuffix_slash_cons. destruct s as [|d s].
  - by destruct (Ascii.eqb c "/").
  - destruct (HasSuffix (String d s) "/"); [|done].
    unfold upto. cbn [String.length Nat.sub String.substring].
    by rewrite Nat.sub_0_r.
Qed.

(** Trimming the slash that was appended gives the string back. *)
Lemma TrimSuffix_app_slash (s : string) : TrimSuffix (s +:+ "/") "/" = s.
Proof.
  induction s as [|c s IH]; [done|].
  change (String c s +:+ "/") with (String c (s +:+ "/")).
  rewrite TrimSuffix_slash_cons, IH. by destruct s.
Qed.

Lemma TrimSuffix_no_slash (s : string) :
  HasSuffix s "/" = false → TrimSuffix s "/" = s.
Proof. intros H. unfold TrimSuffix. by rewrite H. Qed.

(** After one trailing slash is trimmed from a string that is not ["/"] and
    does not end in two slashes, the last byte is not a slash. *)
Lemma TrimSuffix_last (s : string) :
  HasSuffix s "//" = false → s ≠ "/" →
  last_byte (TrimSuffix s "/") ≠ Some "/"%char.
Proof.
  induction s as [|c s IH]; [done|].
  rewrite HasSuffix_slashes_cons, TrimSuffix_slash_cons.
  destruct s as [|d [|e s]].
  - intros _ Hne. destruct (Ascii.eqb_spec c "/") as [->|Hc]; [done|].
    cbn. congruence.
  - intros Hcd _. rewrite TrimSuffix_slash_cons.
    destruct (Ascii.eqb_spec d "/") as [->|Hd].
    + rewrite andb_true_r in Hcd. apply Ascii.eqb_neq in Hcd. cbn. congruence.
    + cbn. congruence.
  - intros Hs _. specialize (IH Hs).
    rewrite TrimSuffix_slash_cons in *.
    cbn [last_byte]. destruct (TrimSuffix (String e s) "/") eqn:Ht.
    + apply IH. discriminate.
    + apply IH. discriminate.
Qed.

Lemma last_byte_nonempty (s : string) : s ≠ EmptyString → is_Some (last_byte s).
Proof.
  induction s as [|c s IH]; [done|]. intros _.
  destruct s; [by eexists | apply IH; discriminate].
Qed.

(** [ReplaceAll(s, "//", "/")] keeps a last byte that is not a slash. *)
Lemma ReplaceAll_slashes_last (n : nat) (s : string) (c : ascii) :
  (String.length s ≤ n)%nat →
  last_byte s = Some c → c ≠ "/"%char →
  last_byte (ReplaceAll s "//" "/") = Some c.
Proof.
  revert s. induction n as [|n IH]; intros s Hlen Hlast Hc.
  { destruct s; [done | cbn in Hlen; lia]. }
  destruct s as [|a [|b s]]; [done | by rewrite ReplaceAll_slashes_one |].
  rewrite ReplaceAll_slashes_cons2. cbn [String.length] in Hlen.
  destruct (Ascii.eqb "/" a && Ascii.eqb "/" b) eqn:Hab.
  - apply andb_true_iff in Hab as [_ Hb%Ascii.eqb_eq]. subst b.
    destruct s as [|d s]; [cbn in Hlast; congruence|].
    assert (last_byte (ReplaceAll (String d s) "//" "/") = Some c) as Hr
      by (apply IH; [cbn [String.length] in *; lia | done | done]).
    cbn [last_byte]. by destruct (ReplaceAll (String d s) "//" "/").
  - assert (last_byte (ReplaceAll (String b s) "//" "/") = Some c) as Hr
      by (apply IH; [cbn [String.length] in *; lia | done | done]).
    cbn [last_byte]. by destruct (ReplaceAll (String b s) "//" "/").
Qed.

(** A concatenation has no ["//"] when its parts have none and the first
    part does not end in a slash. *)
Lemma Contains_slashes_app (s t : string) :
  Contains s "//" = false → Contains t "//" = false →
  last_byte s ≠ Some "/"%char →
  Contains (s +:+ t) "//" = false.
Proof.
  induction s as [|a s IH]; [done|].
  intros Hs Ht Hlast.
  change (String a s +:+ t) with (String a (s +:+ t)).
  destruct s as [|b s].
  - change (EmptyString +:+ t) with t.
    rewrite Contains_cons, Ht, orb_false_r.
    destruct t as [|d t]; [by rewrite prefix_cons, andb_false_r|].
    rewrite prefix_slashes.
    destruct (Ascii.eqb_spec "/" a) as [<-|]; [done | done].
  - change (String b s +:+ t) with (String b (s +:+ t)).
    rewrite Contains_slashes_cons2 in *.
    apply orb_false_iff in Hs as [-> Hs].
    change (String b (s +:+ t)) with (String b s +:+ t).
    by apply IH.
Qed.

End SuffixFacts.

(** ** Paths: [ValidatePath], [NormalizePath], [CombinePaths] *)

Module PathFacts.
Import GoStrings GoStringsFacts Bytes SuffixFacts RouteUtils RouteUtilsFacts
  RouteUtilsMore.

Lemma HasPrefix_nonempty (s : string) : HasPrefix s "/" = true → s ≠ EmptyString.
Proof. by destruct s. Qed.

(** What [ValidatePath] accepts. *)
Lemma ValidatePath_None (path : string) :
  HasPrefix path "/" = true → Contains path "//" = false →
  ValidatePath path = None.
Proof.
  intros Hp Hc. unfold ValidatePath.
  destruct (String.eqb_spec path EmptyString) as [->|_]; [done|].
  by rewrite Hp, Hc.
Qed.

(** [ValidatePath] accepts every result of [NormalizePath]. *)
Theorem ValidatePath_NormalizePath (path : string) :
  ValidatePath (NormalizePath path) = None.
Proof.
  apply ValidatePath_None;
    [apply NormalizePath_leading_slash | apply NormalizePath_no_double_slash].
Qed.

Lemma collapse_slashes_last (fuel : nat) (path : string) :
  last_byte path ≠ Some "/"%char →
  last_byte (collapse_slashes fuel path) ≠ Some "/"%char.
Proof.
  revert path. induction fuel as [|fuel IH]; intros path Hlast; [done|].
  cbn [collapse_slashes]. destruct (Contains path "//"); [|done].
  apply IH. destruct (last_byte path) as [c|] eqn:Hc.
  - rewrite (ReplaceAll_slashes_last _ path c (Nat.le_refl _) Hc); congruence.
  - destruct path as [|a path]; [done|].
    destruct (last_byte_nonempty (String a path)) as [? ?]; [done | congruence].
Qed.

(** On an input that does not end in two slashes, the result of
    [NormalizePath] does not end in a slash. *)
Lemma NormalizePath_last (path : string) :
  HasSuffix path "//" = false →
  NormalizePath path = "/" ∨ last_byte (NormalizePath path) ≠ Some "/"%char.
Proof.
  intros Hss. unfold NormalizePath.
  destruct (String.eqb_spec path EmptyString) as [->|Hne]; [by left|].
  set (p1 := if negb (HasPrefix path "/") then "/" +:+ path else path).
  assert (HasSuffix p1 "//" = false) as Hp1.
  { unfold p1. destruct (HasPrefix path "/") eqn:Hp; cbn [negb]; [done|].
    change ("/" +:+ path) with (String "/"%char path).
    rewrite HasSuffix_slashes_cons. destruct path as [|d [|e s]]; [done| |done].
    unfold HasPrefix in Hp. rewrite prefix_slash in Hp.
    rewrite Ascii.eqb_sym in Hp. by rewrite Hp. }
  destruct (String.eqb_spec p1 "/") as [->|Hp1ne]; cbn [negb andb]; [by left|].
  right. apply collapse_slashes_last.
  destruct (HasSuffix p1 "/") eqn:Hs.
  - by apply TrimSuffix_last.
  - rewrite HasSuffix_slash_last in Hs. by apply bool_decide_eq_false in Hs.
Qed.

(** A path that [NormalizePath] would produce is left as it is. *)
Lemma NormalizePath_fixed (q : string) :
  HasPrefix q "/" = true → Contains q "//" = false →
  q = "/" ∨ last_byte q ≠ Some "/"%char →
  NormalizePath q = q.
Proof.
  intros Hp Hc Hl. unfold NormalizePath.
  destruct (String.eqb_spec q EmptyString) as [->|_]; [done|].
  rewrite Hp. cbn [negb].
  assert (negb (String.eqb q "/") && HasSuffix q "/" = false) as ->.
  { destruct Hl as [->|Hl]; [done|].
    rewrite HasSuffix_slash_last, bool_decide_eq_false_2 by done.
    apply andb_false_r. }
  destruct q as [|a q]; [done|].
  cbn [String.length collapse_slashes]. by rewrite Hc.
Qed.

(** [NormalizePath] on an input that does not end in two slashes: the result
    is ["/"] or does not end in a slash, and normalizing it again changes
    nothing. *)
Theorem NormalizePath_idempotent (path : string) :
  HasSuffix path "//" = false →
  (NormalizePath path = "/" ∨ HasSuffix (NormalizePath path) "/" = false)
  ∧ NormalizePath (NormalizePath path) = NormalizePath path.
Proof.
  intros Hss. pose proof (NormalizePath_last path Hss) as Hl. split.
  - destruct Hl as [Hl|Hl]; [by left|]. right.
    rewrite HasSuffix_slash_last. by apply bool_decide_eq_false.
  - apply NormalizePath_fixed;
      [apply NormalizePath_leading_slash | apply NormalizePath_no_double_slash
      | done].
Qed.

Lemma NormalizePath_idempotent_witness :
  NormalizePath "api///v1//users/" = "/api/v1/users"
  ∧ NormalizePath (NormalizePath "api///v1//users/") = NormalizePath "api///v1//users/".
Proof.
  destruct (NormalizePath_idempotent "api///v1//users/") as [_ H]; [reflexivity|].
  split; [reflexivity | exact H].
Defined.

(** When the base does not end in two slashes, [CombinePaths] returns a path
    that [ValidatePath] accepts: it begins with a slash and has no two
    slashes in a row, also where the two parts are joined. *)
Theorem CombinePaths_valid (base path : string) :
  HasSuffix base "//" = false →
  ValidatePath (CombinePaths base path) = None.
Proof.
  intros Hss. unfold CombinePaths.
  destruct (String.eqb_spec (NormalizePath base) "/") as [_|Hb];
    [apply ValidatePath_NormalizePath|].
  destruct (String.eqb_spec (NormalizePath path) "/") as [_|_];
    [apply ValidatePath_NormalizePath|].
  pose proof (NormalizePath_leading_slash base) as Hlead.
  apply ValidatePath_None.
  - unfold HasPrefix in *. destruct (NormalizePath base) as [|a b]; [done|].
    change (String a b +:+ NormalizePath path)
      with (String a (b +:+ NormalizePath path)).
    by rewrite prefix_slash in *.
  - apply Contains_slashes_app; [apply NormalizePath_no_double_slash..|].
    by destruct (NormalizePath_last base Hss).
Qed.

Lemma CombinePaths_valid_witness :
  CombinePaths "/api/" "users/" = "/api/users"
  ∧ ValidatePath (CombinePaths "/api/" "users/") = None.
Proof.
  split; [reflexivity|]. by apply (CombinePaths_valid "/api/" "users/").
Defined.

End PathFacts.

(** ** Route patterns: [ParseRoutePattern], [DetectConflicts] *)

Module PatternFacts.
Import GoStrings GoStringsFacts RouteUtils RouteUtilsMore Pieces.

Lemma ParseRoutePattern_loop_spec (parts params wildcards staticParts : list string) :
  ParseRoutePattern_loop parts params wildcards staticParts
  = (params ++ param_names parts, wildcards ++ wildcard_names parts,
     staticParts ++ static_pieces parts).
Proof.
  revert params wildcards staticParts.
  induction parts as [|part rest IH]; intros params wildcards staticParts.
  - unfold param_names, wildcard_names, static_pieces. cbn.
    by rewrite !app_nil_r.
  - cbn [ParseRoutePattern_loop].
    unfold param_names, wildcard_names, static_pieces in *.
    cbn [List.filter].
    destruct (HasPrefix part ":"); cbn [negb andb map].
    { rewrite IH. by rewrite <- app_assoc. }
    destruct (HasPrefix part "*"); cbn [negb andb map].
    { rewrite IH. by rewrite <- app_assoc. }
    destruct (String.eqb part EmptyString); cbn [negb].
    + by rewrite IH.
    + rewrite IH. by rewrite <- app_assoc.
Qed.

(** [ParseRoutePattern] sorts the pieces of the pattern: the names of the
    pieces that start with a colon, in order, are the parameters; the names
    of those that start with a star are the wildcards; the remaining
    non-empty pieces are the static parts; and the two flags tell whether
    the first two lists are non-empty. *)
Theorem ParseRoutePattern_spec (pattern : string) :
  let parts := Split pattern "/" in
  let p := ParseRoutePattern pattern in
  Pattern p = pattern
  ∧ Params p = param_names parts
  ∧ Wildcards p = wildcard_names parts
  ∧ StaticParts p = static_pieces parts
  ∧ (HasParams p = true ↔ ∃ part, part ∈ parts ∧ HasPrefix part ":" = true)
  ∧ (HasWildcard p = true ↔
     ∃ part, part ∈ parts ∧ HasPrefix part ":" = false ∧ HasPrefix part "*" = true).
Proof.
  intros parts p. unfold p, ParseRoutePattern. fold parts.
  rewrite ParseRoutePattern_loop_spec. cbn [Pattern Params Wildcards StaticParts
    HasParams HasWildcard app].
  repeat split; try done.
  - intros H%Nat.ltb_lt. unfold param_names in H. rewrite length_map in H.
    destruct (List.filter _ parts) as [|part l] eqn:Hf; [cbn in H; lia|].
    assert (In part (List.filter (λ part, HasPrefix part ":") parts)) as Hin
      by (rewrite Hf; by left).
    apply filter_In in Hin as [Hin Hp]. exists part.
    by rewrite list_elem_of_In.
  - intros (part & Hin & Hp). apply Nat.ltb_lt.
    unfold param_names. rewrite length_map.
    assert (In part (List.filter (λ part, HasPrefix part ":") parts)) as Hin'
      by (apply filter_In; by rewrite <- list_elem_of_In).
    destruct (List.filter _ parts); [done | cbn; lia].
  - intros H%Nat.ltb_lt. unfold wildcard_names in H. rewrite length_map in H.
    destruct (List.filter _ parts) as [|part l] eqn:Hf; [cbn in H; lia|].
    assert (In part (List.filter
              (λ part, negb (HasPrefix part ":") && HasPrefix part "*") parts))
      as Hin by (rewrite Hf; by left).
    apply filter_In in Hin as [Hin Hp]. exists part.
    apply andb_true_iff in Hp as [Hc%negb_true_iff Hs].
    by rewrite list_elem_of_In.
  - intros (part & Hin & Hc & Hs). apply Nat.ltb_lt.
    unfold wildcard_names. rewrite length_map.
    assert (In part (List.filter
              (λ part, negb (HasPrefix part ":") && HasPrefix part "*") parts))
      as Hin'.
    { apply filter_In. rewrite <- list_elem_of_In. by rewrite Hc, Hs. }
    destruct (List.filter _ parts); [done | cbn; lia].
Qed.

Lemma ExtractParams_loop_keys (parts Q : list string) (i : nat)
    (params : gmap string string) (k : string) :
  is_Some (ExtractParams_loop parts Q i params !! k) →
  is_Some (params !! k) ∨ k ∈ param_names parts ∨ k ∈ wildcard_names parts.
Proof.
  revert i params. induction parts as [|part rest IH]; intros i params; [by left|].
  cbn [ExtractParams_loop]. unfold param_names, wildcard_names in *.
  cbn [List.filter].
  destruct (HasPrefix part ":"); cbn [negb andb map].
  { intros H. destruct (IH _ _ H) as [Hk|[Hk|Hk]].
    - destruct (decide (from 1 part = k)) as [<-|Hne].
      + right. left. apply list_elem_of_here.
      + left. by rewrite lookup_insert_ne in Hk.
    - right. left. by apply list_elem_of_further.
    - by right; right. }
  destruct (HasPrefix part "*"); cbn [negb andb map].
  { intros H. destruct (decide (from 1 part = k)) as [<-|Hne].
    - right. right. apply list_elem_of_here.
    - left. by rewrite lookup_insert_ne in H. }
  apply IH.
Qed.

(** Every key of the map that [ExtractParams] returns is one of the
    parameter or wildcard names that [ParseRoutePattern] reports for the
    pattern. *)
Theorem ExtractParams_keys (pattern path k : string) :
  is_Some (ExtractParams pattern path !! k) →
  k ∈ Params (ParseRoutePattern pattern)
  ∨ k ∈ Wildcards (ParseRoutePattern pattern).
Proof.
  destruct (ParseRoutePattern_spec pattern) as (_ & -> & -> & _).
  unfold ExtractParams.
  destruct (negb _); [by rewrite lookup_empty; intros [? ?]|].
  intros H. apply ExtractParams_loop_keys in H as [H|H]; [|done].
  rewrite lookup_empty in H. by destruct H.
Qed.

Lemma ExtractParams_keys_witness :
  "id" ∈ Params (ParseRoutePattern "/users/:id")
  ∨ "id" ∈ Wildcards (ParseRoutePattern "/users/:id").
Proof. apply (ExtractParams_keys "/users/:id" "/users/42" "id"). by eexists. Defined.

Lemma DetectConflicts_loop_sym (parts1 parts2 : list string) (n i : nat) :
  DetectConflicts_loop parts1 parts2 n i = DetectConflicts_loop parts2 parts1 n i.
Proof.
  revert i. induction n as [|n IH]; intros i; [done|].
  cbn [DetectConflicts_loop]. rewrite IH.
  rewrite (String.eqb_sym (parts2 !!! i) (parts1 !!! i)).
  by destruct (HasPrefix (parts1 !!! i) ":"), (HasPrefix (parts1 !!! i) "*"),
    (HasPrefix (parts2 !!! i) ":"), (HasPrefix (parts2 !!! i) "*").
Qed.

(** [DetectConflicts] does not depend on the order of its two arguments, and
    every pattern conflicts with itself. *)
Theorem DetectConflicts_symmetric (pattern1 pattern2 : string) :
  DetectConflicts pattern1 pattern2 = DetectConflicts pattern2 pattern1
  ∧ DetectConflicts pattern1 pattern1 = true.
Proof.
  split; [|unfold DetectConflicts; by rewrite String.eqb_refl].
  unfold DetectConflicts. rewrite (String.eqb_sym pattern2 pattern1).
  destruct (String.eqb pattern1 pattern2); [done|].
  rewrite (andb_comm (HasWildcard (ParseRoutePattern pattern2))).
  destruct (_ && _); [done|].
  rewrite (Nat.eqb_sym (length (Split pattern2 "/"))).
  destruct (Nat.eqb_spec (length (Split pattern1 "/")) (length (Split pattern2 "/")))
    as [Hlen|_]; [|done].
  cbn [negb]. rewrite <- Hlen. apply DetectConflicts_loop_sym.
Qed.

End PatternFacts.

(** ** [ValidateParams] and [CalculateStatistics] *)

Module ValidationFacts.
Import context constraints RouteUtilsMore.

Lemma ValidateParams_loop_None (params : gmap string string)
    (entries : list (string * Constraint)) :
  ValidateParams_loop params entries = None
  ↔ Forall (λ entry, ∃ value, params !! entry.1 = Some value
                              ∧ entry.2 value = true) entries.
Proof.
  induction entries as [|[name c] rest IH]; [done|].
  cbn [ValidateParams_loop]. rewrite Forall_cons. cbn [fst snd].
  destruct (params !! name) as [value|].
  - destruct (c value) eqn:Hc; cbn [negb].
    + rewrite IH. split; [by eauto | by intros [_ ?]].
    + split; [done|]. intros [(v & [= <-] & Hv) _]. congruence.
  - split; [done|]. by intros [(v & ? & _) _].
Qed.

(** [ValidateParams] returns nil exactly when every constrained parameter is
    present and its value satisfies its constraint, whatever the order in
    which the constraints are visited. *)
Theorem ValidateParams_nil (params : gmap string string)
    (constraints : gmap string Constraint) :
  ValidateParams params constraints = None
  ↔ ∀ name constraint,
      constraints !! name = Some constraint →
      ∃ value, params !! name = Some value ∧ constraint value = true.
Proof.
  unfold ValidateParams. rewrite ValidateParams_loop_None, Forall_forall.
  split.
  - intros H name c Hc. by apply (H (name, c)), elem_of_map_to_list.
  - intros H [name c] Hin. by apply H, elem_of_map_to_list.
Qed.

Lemma ValidateParams_nil_witness :
  ValidateParams {[ "id" := "123"; "name" := "John" ]}
    {[ "id" := IsNumeric; "name" := MinLength 2 ]} = None.
Proof.
  apply ValidateParams_nil. intros name c Hc.
  apply lookup_insert_Some in Hc as [[<- <-]|[_ Hc]]; [by eexists|].
  apply lookup_singleton_Some in Hc as [<- <-]. by eexists.
Defined.

Lemma int_wrap_small (z : Z) :
  (- 2 ^ 63 ≤ z < 2 ^ 63)%Z → response.int_wrap z = z.
Proof. intros H. unfold response.int_wrap. rewrite Z.mod_small; lia. Qed.

(** The number of routes of a list with a given method. *)
Lemma count_method_app (m : string) (routes : list RouteInfo) (route : RouteInfo) :
  length (List.filter (λ r, String.eqb (Method r) m) (routes ++ [route]))
  = (length (List.filter (λ r, String.eqb (Method r) m) routes)
     + if String.eqb (Method route) m then 1 else 0)%nat.
Proof.
  rewrite List.filter_app, length_app. cbn [List.filter].
  by destruct (String.eqb (Method route) m).
Qed.

(** [CalculateStatistics] on a list of routes (of a length that a Go slice
    can have): the total is the number of routes, every route is counted as
    exactly one of static, parametric and wildcard, the named routes are at
    most the total, and the distribution gives for every method the number
    of routes that have it. *)
Theorem CalculateStatistics_counts (routes : list RouteInfo) :
  (Z.of_nat (length routes) < 2 ^ 63)%Z →
  let stats := CalculateStatistics routes in
  TotalRoutes stats = Z.of_nat (length routes)
  ∧ (StaticRoutes stats + ParametricRoutes stats + WildcardRoutes stats
     = TotalRoutes stats)%Z
  ∧ (0 ≤ StaticRoutes stats ∧ 0 ≤ ParametricRoutes stats
     ∧ 0 ≤ WildcardRoutes stats)%Z
  ∧ (0 ≤ NamedRoutes stats ≤ TotalRoutes stats)%Z
  ∧ ∀ m, default 0%Z (MethodDistribution stats !! m)
         = Z.of_nat (length (List.filter (λ r, String.eqb (Method r) m) routes)).
Proof.
  induction routes as [|route routes IH] using rev_ind; intros Hlen stats.
  { cbn. repeat split; try lia; by intros m. }
  rewrite length_app in Hlen. cbn [length] in Hlen.
  destruct IH as (Ht & Hsum & (Hs & Hp & Hw) & Hn & Hd); [lia|].
  unfold stats, CalculateStatistics. rewrite fold_left_app. cbn [fold_left].
  fold (CalculateStatistics routes).
  set (old := CalculateStatistics routes) in *.
  assert (∀ z, (0 ≤ z ≤ Z.of_nat (length routes))%Z → incr z = (z + 1)%Z) as Hincr.
  { intros z Hz. unfold incr. apply int_wrap_small. lia. }
  assert (MethodDistribution (CalculateStatistics_step old route)
          = <[Method route := incr (default 0%Z (MethodDistribution old !! Method route))]>
              (MethodDistribution old)) as Hdist.
  { unfold CalculateStatistics_step.
    destruct (HasWildcard (ParseRoutePattern (Path route)));
      [|destruct (HasParams (ParseRoutePattern (Path route)))]; done. }
  assert (TotalRoutes (CalculateStatistics_step old route)
          = incr (TotalRoutes old)) as Htot.
  { unfold CalculateStatistics_step.
    destruct (HasWildcard (ParseRoutePattern (Path route)));
      [|destruct (HasParams (ParseRoutePattern (Path route)))]; done. }
  assert (NamedRoutes (CalculateStatistics_step old route)
          = if negb (String.eqb (Name route) EmptyString)
            then incr (NamedRoutes old) else NamedRoutes old) as Hnamed.
  { unfold CalculateStatistics_step.
    destruct (HasWildcard (ParseRoutePattern (Path route)));
      [|destruct (HasParams (ParseRoutePattern (Path route)))]; done. }
  rewrite Htot, Hnamed, Hdist, (Hincr (TotalRoutes old)) by lia.
  rewrite length_app, Nat2Z.inj_add. cbn [length].
  split; [lia|]. split; [|split; [|split]].
  - unfold CalculateStatistics_step.
    destruct (HasWildcard (ParseRoutePattern (Path route)));
      [|destruct (HasParams (ParseRoutePattern (Path route)))];
      cbn [StaticRoutes ParametricRoutes WildcardRoutes];
      rewrite Hincr by lia; lia.
  - unfold CalculateStatistics_step.
    destruct (HasWildcard (ParseRoutePattern (Path route)));
      [|destruct (HasParams (ParseRoutePattern (Path route)))];
      cbn [StaticRoutes ParametricRoutes WildcardRoutes];
      rewrite Hincr by lia; lia.
  - destruct (negb _); [rewrite Hincr by lia|]; lia.
  - intros m. rewrite count_method_app, Nat2Z.inj_add, <- Hd.
    destruct (String.eqb_spec (Method route) m) as [<-|Hne].
    + rewrite lookup_insert_eq. cbn [default].
      apply Hincr. rewrite Hd. split; [lia|].
      apply inj_le. apply List.filter_length_le.
    + rewrite lookup_insert_ne by done. lia.
Qed.

Lemma CalculateStatistics_counts_witness :
  let stats := CalculateStatistics MoreExamples.test_routes in
  TotalRoutes stats = 4%Z
  ∧ (StaticRoutes stats + ParametricRoutes stats + WildcardRoutes stats = 4)%Z
  ∧ default 0%Z (MethodDistribution stats !! "GET") = 3%Z.
Proof.
  destruct (CalculateStatistics_counts MoreExamples.test_routes)
    as (Ht & Hsum & _ & _ & Hd); [by cbn|].
  intros stats. subst stats. split; [exact Ht|].
  split; [rewrite Hsum; exact Ht|]. exact (Hd "GET").
Defined.

End ValidationFacts.

(** ** Constraints *)

Module constraintsFacts.
Import GoStrings constraints Bytes.

Lemma all_bytes_impl (ok ok' : ascii → bool) (value : string) :
  (∀ c, ok c = true → ok' c = true) →
  all_bytes ok value = true → all_bytes ok' value = true.
Proof.
  intros Himpl. induction value as [|c rest IH]; [done|].
  cbn [all_bytes]. destruct (ok c) eqn:Hc; [|done].
  rewrite (Himpl c Hc). cbn [negb]. apply IH.
Qed.

Lemma digit_not_letter (c : ascii) : is_digit c = true → is_letter c = false.
Proof.
  unfold is_digit, is_letter, byte_in. cbn.
  intros [H1%N.leb_le H2%N.leb_le]%andb_true_iff.
  apply orb_false_iff. split; apply andb_false_iff; left; apply N.leb_gt; lia.
Qed.

(** The three character-class constraints reject the empty string; a value
    that [IsNumeric] or [IsAlpha] accepts is accepted by [IsAlphaNumeric];
    and no value is accepted by both [IsNumeric] and [IsAlpha]. *)
Theorem character_classes (value : string) :
  (IsNumeric EmptyString = false ∧ IsAlpha EmptyString = false
   ∧ IsAlphaNumeric EmptyString = false)
  ∧ (IsNumeric value = true → IsAlphaNumeric value = true)
  ∧ (IsAlpha value = true → IsAlphaNumeric value = true)
  ∧ (IsNumeric value = true → IsAlpha value = false).
Proof.
  split; [done|]. unfold IsNumeric, IsAlpha, IsAlphaNumeric.
  split; [|split].
  - intros [Hd ->]%andb_true_iff. rewrite andb_true_r.
    revert Hd. apply all_bytes_impl. intros c ->. apply orb_true_r.
  - intros [Hl ->]%andb_true_iff. rewrite andb_true_r.
    revert Hl. apply all_bytes_impl. by intros c ->.
  - intros [Hd Hlen]%andb_true_iff. destruct value as [|c rest]; [done|].
    cbn [all_bytes] in *. destruct (is_digit c) eqn:Hc; [|done].
    by rewrite (digit_not_letter c Hc).
Qed.

Lemma character_classes_witness :
  IsAlphaNumeric "2024" = true ∧ IsAlphaNumeric "wolf" = true
  ∧ IsAlpha "2024" = false.
Proof.
  destruct (character_classes "2024") as (_ & H1 & _ & H3).
  destruct (character_classes "wolf") as (_ & _ & H2 & _).
  split; [by apply H1 | split; [by apply H2 | by apply H3]].
Defined.

(** [And] accepts a value exactly when every constraint accepts it, [Or]
    exactly when some constraint does, and the negation of [And] is the [Or]
    of the negations. *)
Theorem And_Or_Not (cs : list Constraint) (value : string) :
  (And cs value = true ↔ ∀ c, c ∈ cs → c value = true)
  ∧ (Or cs value = true ↔ ∃ c, c ∈ cs ∧ c value = true)
  ∧ Not (And cs) value = Or (map Not cs) value
  ∧ Not (Or cs) value = And (map Not cs) value.
Proof.
  split; [|split; [|split]].
  - induction cs as [|c cs IH]; cbn [And].
    + split; [by intros _ c ?%elem_of_nil | done].
    + destruct (c value) eqn:Hc; cbn [negb].
      * rewrite IH. split.
        -- intros H c' [->|?]%elem_of_cons; auto.
        -- intros H c' Hin. apply H. by apply list_elem_of_further.
      * split; [done|]. intros H. rewrite <- Hc. apply H, list_elem_of_here.
  - induction cs as [|c cs IH]; cbn [Or].
    + split; [done | by intros (c & ?%elem_of_nil & _)].
    + destruct (c value) eqn:Hc.
      * split; [|done]. intros _. exists c. split; [apply list_elem_of_here | done].
      * rewrite IH. split.
        -- intros (c' & Hin & Hc'). exists c'. split; [by apply list_elem_of_further|done].
        -- intros (c' & [->|Hin]%elem_of_cons & Hc'); [congruence | eauto].
  - unfold Not. induction cs as [|c cs IH]; [done|].
    cbn [And Or map]. destruct (c value); cbn [negb]; [apply IH | done].
  - unfold Not. induction cs as [|c cs IH]; [done|].
    cbn [And Or map]. destruct (c value); cbn [negb]; [done | apply IH].
Qed.

Lemma OneOf_fill_lookup (allowed : list string) (m : gmap string bool) (v : string) :
  default false (OneOf_fill allowed m !! v) = true
  ↔ v ∈ allowed ∨ default false (m !! v) = true.
Proof.
  revert m. induction allowed as [|a allowed IH]; intros m; cbn [OneOf_fill].
  - split; [by right | by intros [?%elem_of_nil|?]].
  - rewrite IH, elem_of_cons. destruct (decide (a = v)) as [->|Hne].
    + rewrite lookup_insert_eq. cbn [default from_option id].
      split; [by intros _; left; left | by intros _; right].
    + rewrite lookup_insert_ne by done. split.
      * intros [?|?]; [left; by right | by right].
      * intros [[?|?]|?]; [congruence | by left | by right].
Qed.

(** [OneOf(allowed...)] accepts exactly the values of [allowed]. *)
Theorem OneOf_spec (allowed : list string) (value : string) :
  OneOf allowed value = true ↔ value ∈ allowed.
Proof.
  unfold OneOf. rewrite OneOf_fill_lookup, lookup_empty. cbn.
  split; [by intros [?|?] | by left].
Qed.

End constraintsFacts.

(** ** Numeric constraints *)

Module numericFacts.
Import GoStrings constraints constraintsFacts.

Lemma parse_digits_bounds (s : string) (acc : Z) :
  all_bytes is_digit s = true → (0 ≤ acc)%Z →
  ∃ n, parse_digits s acc = Some n
       ∧ (acc * 10 ^ Z.of_nat (String.length s) ≤ n
          < (acc + 1) * 10 ^ Z.of_nat (String.length s))%Z.
Proof.
  revert acc. induction s as [|c s IH]; intros acc Hs Hacc.
  - exists acc. cbn. split; [done | lia].
  - cbn [all_bytes parse_digits] in *. destruct (is_digit c) eqn:Hc; [|done].
    cbn [negb] in Hs.
    assert (0 ≤ Z.of_N (N_of_ascii c) - 48 ≤ 9)%Z as Hd.
    { unfold is_digit, byte_in in Hc. cbn in Hc.
      apply andb_true_iff in Hc as [H1%N.leb_le H2%N.leb_le]. lia. }
    destruct (IH (acc * 10 + (Z.of_N (N_of_ascii c) - 48))%Z Hs) as (n & Hn & Hb);
      [lia|].
    exists n. split; [done|].
    cbn [String.length]. rewrite Nat2Z.inj_succ, Z.pow_succ_r by lia.
    nia.
Qed.

Lemma digit_not_sign (c : ascii) :
  is_digit c = true → Ascii.eqb c "-" || Ascii.eqb c "+" = false.
Proof.
  intros Hc. apply orb_false_iff.
  split; apply Ascii.eqb_neq; intros ->; done.
Qed.

(** A value that [IsNumeric] accepts and that has at most 18 digits is read
    by [strconv.Atoi] as a number that is not negative, so [MinValue(0)]
    accepts it; and [ValueRange(min, max)] accepts a value exactly when
    [MinValue(min)] and [MaxValue(max)] both accept it. *)
Theorem numeric_values (value : string) (min max : Z) :
  ValueRange min max value = And [MinValue min; MaxValue max] value
  ∧ (IsNumeric value = true → (String.length value ≤ 18)%nat →
     (∃ n, Atoi value = Some n ∧ (0 ≤ n < 10 ^ 18)%Z)
     ∧ MinValue 0 value = true).
Proof.
  split.
  - unfold ValueRange, MinValue, MaxValue. cbn [And].
    destruct (Atoi value) as [val|]; [|done].
    destruct (min <=? val)%Z; cbn [negb andb]; [|done].
    by destruct (val <=? max)%Z.
  - unfold IsNumeric. intros [Hd Hlen]%andb_true_iff Hle.
    destruct value as [|c rest]; [done|].
    destruct (parse_digits_bounds (String c rest) 0 Hd) as (n & Hn & Hb); [lia|].
    assert (0 ≤ n < 10 ^ 18)%Z as Hn18.
    { split; [lia|]. eapply Z.lt_le_trans; [apply Hb|].
      rewrite Z.add_0_l, Z.mul_1_l. apply Z.pow_le_mono_r; lia. }
    assert (Atoi (String c rest) = Some n) as Ha.
    { unfold Atoi. cbn [all_bytes] in Hd.
      destruct (is_digit c) eqn:Hc; [|done].
      pose proof (digit_not_sign c Hc) as Hsign. rewrite Hsign.
      apply orb_false_iff in Hsign as [-> _]. rewrite Hn.
      assert ((- 2 ^ 63 <=? n)%Z && (n <=? 2 ^ 63 - 1)%Z = true) as ->; [|done].
      apply andb_true_iff. split; apply Z.leb_le; lia. }
    split; [by exists n|].
    unfold MinValue. rewrite Ha. apply Z.leb_le. lia.
Qed.

Lemma numeric_values_witness :
  (∃ n, Atoi "00042" = Some n ∧ (0 ≤ n < 10 ^ 18)%Z) ∧ MinValue 0 "00042" = true.
Proof.
  destruct (numeric_values "00042" 0 0) as [_ H]. apply H; [reflexivity | cbn; lia].
Defined.

End numericFacts.

(** ** A middleware that does not call [Next] *)

Module ShortCircuitFacts.
Import context contextFacts MiddlewareChain Stages MiddlewareChainFacts.

Lemma Build_app (mws1 mws2 : list HandlerFunc) (h : HandlerFunc) :
  Build (mkChain (mws1 ++ mws2)) h = Build (mkChain mws1) (Build (mkChain mws2) h).
Proof. by rewrite !Build_foldr, foldr_app. Qed.

(** When a middleware returns without calling [c.Next()], the middleware
    after it and the terminal handler are not run: along a chain whose
    first stages work, call [Next] once and work again, followed by a stage
    [stop] that works and returns [err], the writer receives the
    pre-[Next] work of the stages before [stop], then the work of [stop],
    then their post-[Next] work in reverse order, and the chain returns
    [err] -- whatever the later middleware and the handler are. *)
Theorem Build_short_circuit (before : list (list WriterCall * list WriterCall))
    (pre : list WriterCall) (err : option error)
    (rest : list HandlerFunc) (h : HandlerFunc) (fuel : nat) (c : Context) :
  run (length before + fuel)
    (Build (mkChain (map around before ++ writes pre (Return err) :: rest)) h) c
  = Some (err,
          mkContext (Params c)
            (Writer c ++ concat (map fst before) ++ pre
             ++ concat (reverse (map snd before)))
            (Some (Build (mkChain rest) h)) (errorHandler c)).
Proof.
  rewrite Build_app.
  rewrite (Build_around_order before _ fuel c err
             (log pre (set_next (Build (mkChain rest) h)
                (at_terminal before
                   (Build (mkChain (writes pre (Return err) :: rest)) h) c)))).
  - unfold log, set_next, at_terminal. cbn. by rewrite <- !app_assoc.
  - rewrite Build_cons. unfold closure.
    by rewrite run_SetNext, run_writes, run_Return.
Qed.

End ShortCircuitFacts.

(** ** [PathMatcher] *)

Module PathMatcherFacts.
Import GoStrings SuffixFacts RouteUtils RouteUtilsMore.

Lemma MatchPath_refl (p : string) : MatchPath p p = true.
Proof. unfold MatchPath. by rewrite String.eqb_refl. Qed.

(** Whatever [strings.ToLower] does and whatever the options are, [Match]
    accepts a path as its own pattern; and a matcher that is case sensitive
    and not strict about slashes accepts a path with a slash appended for
    the pattern without it, and the other way round. *)
Theorem Match_trailing_slash (ToLower : string → string) (pm : PathMatcher)
    (p : string) :
  Match ToLower pm p p = true
  ∧ (HasSuffix p "/" = false →
     Match ToLower (NewPathMatcher true false) p (p +:+ "/") = true
     ∧ Match ToLower (NewPathMatcher true false) (p +:+ "/") p = true).
Proof.
  split.
  - unfold Match. destruct (caseSensitive pm), (strictSlash pm); cbn [negb];
      apply MatchPath_refl.
  - intros Hs. unfold Match, NewPathMatcher. cbn [caseSensitive strictSlash negb].
    rewrite TrimSuffix_app_slash, (TrimSuffix_no_slash p Hs).
    split; apply MatchPath_refl.
Qed.

Lemma Match_trailing_slash_witness :
  Match id (NewPathMatcher true false) "/users" "/users/" = true
  ∧ Match id (NewPathMatcher true false) "/users/" "/users" = true.
Proof.
  destruct (Match_trailing_slash id (NewPathMatcher true false) "/users") as [_ H].
  by apply H.
Defined.

End PathMatcherFacts.

(** ** Groups: [Router.Group], [Use] and the shortcuts *)

Module GroupFacts.
Import context GoStringsFacts slices slicesFacts Router Group.

Section WithTrie.
Context {node : Type} {trie : Trie node}.

Lemma handle_elems (heap : Heap) (g : Group) (r : Router node)
    (method path : string) (handler : option HandlerFunc) (extra : slice) :
  valid heap (middleware g) = true →
  fst (handle heap g r method path handler extra)
  = Handle r method (prefix g +:+ path) handler
      (elems heap (middleware g) ++ elems heap extra).
Proof.
  intros Hv. unfold handle.
  destruct (append_elems heap (middleware g) (elems heap extra) Hv) as [Hel _].
  destruct (append heap (middleware g) (elems heap extra)) as [all heap1].
  cbn [fst snd] in *. by rewrite Hel.
Qed.

(** A route registered with [GET] through a group made by
    [r.Group(p, mws...)] and extended by [Use(more...)] is registered on the
    router under [p + path], behind the middleware [mws], then [more], then
    the middleware of the route. *)
Theorem Group_Use_GET (heap : Heap) (r : Router node) (p : string)
    (mws more extra : slice) (path : string) (handler : option HandlerFunc) :
  valid heap mws = true →
  let g := Router_Group p mws in
  fst (GET (snd (Use heap g more)) (fst (Use heap g more)) r path handler extra)
  = Handle r "GET" (p +:+ path) handler
      (elems heap mws ++ elems heap more ++ elems (snd (Use heap g more)) extra).
Proof.
  intros Hv g. unfold GET, Use, g, Router_Group. cbn [middleware prefix].
  destruct (append_elems heap mws (elems heap more) Hv) as [Hel Hv'].
  destruct (append heap mws (elems heap more)) as [all heap1].
  cbn [fst snd] in *.
  rewrite handle_elems by done. cbn [prefix middleware].
  by rewrite Hel, <- app_assoc.
Qed.

End WithTrie.

(** Two sub-groups made from the same group share its backing array when the
    array has room: if the group's slice has spare capacity for the
    middleware of either call, the second [g.Group(...)] writes its
    middleware over the middleware that the first call added, and the first
    sub-group's middleware becomes that of the second. *)
Theorem sub_groups_share_array (heap : Heap) (g : Group) (p1 p2 : string)
    (mws1 mws2 : slice) (a : nat) :
  valid heap (middleware g) = true →
  array (middleware g) = Some a →
  array mws1 ≠ Some a → array mws2 ≠ Some a →
  length (elems heap mws1) = length (elems heap mws2) →
  (len (middleware g) + length (elems heap mws1) ≤ cap (middleware g))%nat →
  let '(g1, heap1) := Group_ heap g p1 mws1 in
  let '(g2, heap2) := Group_ heap1 g p2 mws2 in
  elems heap1 (middleware g1) = elems heap (middleware g) ++ elems heap mws1
  ∧ elems heap2 (middleware g1) = elems heap (middleware g) ++ elems heap mws2
  ∧ elems heap2 (middleware g2) = elems heap (middleware g) ++ elems heap mws2.
Proof.
  intros Hv Ha Hn1 Hn2 Hlen Hcap.
  unfold Group_, append, valid, elems, cells in *. rewrite Ha in *.
  destruct (heap !! a) as [cs|] eqn:Hcs; [|done].
  apply andb_true_iff in Hv as [Hl%Nat.leb_le Hc%Nat.leb_le].
  cbn [default from_option id] in *.
  set (xs1 := take (len mws1) match array mws1 with
                                 | Some a0 => default [] (heap !! a0)
                                 | None => []
                                 end) in *.
  set (xs2 := take (len mws2) match array mws2 with
                                 | Some a0 => default [] (heap !! a0)
                                 | None => []
                                 end) in *.
  destruct (Nat.leb_spec (len (middleware g) + length xs1) (cap (middleware g)))
    as [_|?]; [|lia].
  cbn [middleware array len cap].
  set (heap1 := <[a := take (len (middleware g)) cs ++ xs1
                       ++ drop (len (middleware g) + length xs1) cs]> heap).
  assert (take (len mws2) match array mws2 with
                          | Some a0 => default [] (heap1 !! a0)
                          | None => []
                          end = xs2) as ->.
  { unfold xs2, heap1. destruct (array mws2) as [a2|]; [|done].
    rewrite lookup_insert_ne; [done | congruence]. }
  assert (heap1 !! a = Some (take (len (middleware g)) cs ++ xs1
                             ++ drop (len (middleware g) + length xs1) cs))
    as -> by apply lookup_insert_eq.
  cbn [default from_option id].
  destruct (Nat.leb_spec (len (middleware g) + length xs2) (cap (middleware g)))
    as [_|?]; [|lia].
  cbn [middleware array len cap].
  assert (length (take (len (middleware g)) cs) = len (middleware g)) as Htake
    by (rewrite length_take; lia).
  assert (∀ (xs rest : list HandlerFunc),
            take (len (middleware g) + length xs)
              (take (len (middleware g)) cs ++ xs ++ rest)
            = take (len (middleware g)) cs ++ xs) as Hread.
  { intros xs rest. rewrite app_assoc. apply take_app_length'.
    rewrite length_app, Htake. lia. }
  assert (take (len (middleware g))
            (take (len (middleware g)) cs ++ xs1
             ++ drop (len (middleware g) + length xs1) cs)
          = take (len (middleware g)) cs) as Hsame.
  { by apply take_app_length'. }
  split; [|split].
  - apply Hread.
  - rewrite lookup_insert_eq. cbn [default from_option id].
    rewrite Hsame, Hlen. apply Hread.
  - rewrite lookup_insert_eq. cbn [default from_option id].
    rewrite Hsame. apply Hread.
Qed.

End GroupFacts.


Module GroupWitnesses.
Import context slices Router Group Table Examples MoreExamples GroupFacts.

Lemma Group_Use_GET_witness :
  let g := Router_Group "/api" example_extra in
  fst (GET (snd (Use example_heap g example_extra))
         (fst (Use example_heap g example_extra))
         (New (node := Table.node)) "/users" (Some test_handler) nil)
  = Handle New "GET" ("/api" +:+ "/users") (Some test_handler)
      (elems example_heap example_extra ++ elems example_heap example_extra
       ++ elems (snd (Use example_heap g example_extra)) nil).
Proof.
  apply (Group_Use_GET example_heap New "/api" example_extra example_extra nil
           "/users" (Some test_handler)).
  reflexivity.
Defined.

Lemma sub_groups_share_array_witness :
  let '(g1, heap1) := Group_ sibling_heap sibling_parent "/v1" first_args in
  let '(g2, heap2) := Group_ heap1 sibling_parent "/v2" second_args in
  elems heap1 (middleware g1)
  = elems sibling_heap (middleware sibling_parent) ++ elems sibling_heap first_args
  ∧ elems heap2 (middleware g1)
    = elems sibling_heap (middleware sibling_parent)
      ++ elems sibling_heap second_args
  ∧ elems heap2 (middleware g2)
    = elems sibling_heap (middleware sibling_parent)
      ++ elems sibling_heap second_args.
Proof.
  apply (sub_groups_share_array sibling_heap sibling_parent "/v1" "/v2"
           first_args second_args 1);
    [reflexivity | reflexivity | discriminate | discriminate | reflexivity
    | vm_compute; lia].
Defined.

End GroupWitnesses.

(** ** Sequences of calls on a [Writer] *)

Module WriterCallsFacts.
Import context response responseFacts WriterCalls.

Lemma int_wrap_add (a b : Z) : int_wrap (int_wrap a + b) = int_wrap (a + b).
Proof.
  unfold int_wrap. f_equal.
  replace ((a + 2 ^ 63) mod 2 ^ 64 - 2 ^ 63 + b + 2 ^ 63)%Z
    with ((a + 2 ^ 63) mod 2 ^ 64 + b)%Z by lia.
  rewrite Zplus_mod_idemp_l. f_equal. lia.
Qed.

Lemma last_cons_default {A} (l : list A) (a d : A) :
  List.last (a :: l) d = List.last l a.
Proof.
  revert a d. induction l as [|b l IH]; intros a d; [done|].
  change (List.last (a :: b :: l) d) with (List.last (b :: l) d).
  by rewrite !IH.
Qed.

(** Before the first [Write], every [WriteHeader] reaches the underlying
    writer and the last one gives the status. *)
Lemma perform_headers (codes : list Z) (w : Writer Recorder) :
  written w = false →
  perform (map CallWriteHeader codes) w
  = mkWriter (mkRecorder (calls (ResponseWriter_ w) ++ map CallWriteHeader codes))
      (List.last codes (statusCode w)) false (size w).
Proof.
  revert w. induction codes as [|code codes IH]; intros [[cs] st wr sz] Hw;
    cbn in Hw; subst wr.
  - cbn. by rewrite app_nil_r.
  - unfold perform in *. cbn [map foldl call].
    rewrite WriteHeader_before_Write by done.
    rewrite IH by done. cbn [ResponseWriter_ statusCode size rw_WriteHeader
      recorder_writer calls].
    rewrite <- app_assoc. cbn [app]. f_equal.
    by rewrite last_cons_default.
Qed.

(** After a [Write], only the [Write]s reach the underlying writer, and the
    status stays. *)
Lemma perform_written (ops : list WriterCall) (w : Writer Recorder) (total : Z) :
  written w = true → size w = int_wrap total →
  perform ops w
  = mkWriter (mkRecorder (calls (ResponseWriter_ w) ++ filter is_write ops))
      (statusCode w) true (int_wrap (total + Z.of_nat (bytes_written ops))).
Proof.
  revert w total. induction ops as [|op ops IH]; intros [[cs] st wr sz] total Hw Hsz;
    cbn in Hw, Hsz; subst wr sz.
  - cbn. rewrite app_nil_r, Z.add_0_r. done.
  - unfold perform in *. cbn [foldl]. destruct op as [code|data].
    + cbn [call]. unfold WriteHeader. cbn [written].
      rewrite (IH _ total) by done. done.
    + cbn [call]. unfold Write. cbn.
      rewrite (IH _ (total + Z.of_nat (String.length data))%Z).
      * cbn [ResponseWriter_ statusCode calls filter is_write bytes_written
          foldr]. fold (bytes_written ops).
        rewrite <- app_assoc. cbn [app]. do 2 f_equal. lia.
      * done.
      * cbn. apply int_wrap_add.
Qed.

(** Whatever the calls are, on a new writer over a recorder: the
    [WriteHeader] calls made before the first [Write] all reach the
    underlying writer; the first [Write] sends the header once more, with
    the last of their codes (200 when there is none); after it only the
    [Write]s are forwarded, the status that [Status] reports no longer
    changes, and [Size] is the number of bytes written, as a Go [int]. *)
Theorem Writer_calls (codes : list Z) (data : string) (ops : list WriterCall) :
  let w := perform (map CallWriteHeader codes ++ CallWrite data :: ops)
             (NewWriter (mkRecorder [])) in
  calls (ResponseWriter_ w)
  = map CallWriteHeader codes
    ++ CallWriteHeader (List.last codes 200%Z) :: CallWrite data
    :: filter is_write ops
  ∧ Status w = List.last codes 200%Z
  ∧ Written w = true
  ∧ Size w = int_wrap (Z.of_nat (bytes_written (CallWrite data :: ops))).
Proof.
  cbv zeta. unfold perform. rewrite foldl_app.
  fold (perform (map CallWriteHeader codes) (NewWriter (mkRecorder []))).
  rewrite perform_headers by done.
  cbn [foldl call NewWriter ResponseWriter_ statusCode size calls app].
  unfold Write. cbn [written negb ResponseWriter_ statusCode size rw_WriteHeader
    rw_Write recorder_writer calls snd].
  match goal with
  | |- context [foldl call ?w0 ops] =>
      fold (perform ops w0);
      rewrite (perform_written ops w0 (Z.of_nat (String.length data)))
  end.
  - cbn [ResponseWriter_ statusCode calls Status Written Size size written
      bytes_written foldr].
    repeat split.
    + rewrite <- !app_assoc. done.
    + f_equal. fold (bytes_written ops). lia.
  - done.
  - cbn. f_equal.
Qed.

End WriterCallsFacts.


(** ** The route builder and named routes *)

Module ReplaceFacts.
Import GoStrings GoStringsFacts RouterInternalsFacts.

Lemma prefix_refl_app (p s : string) : String.prefix p (p +:+ s) = true.
Proof.
  induction p as [|a p IH]; [apply prefix_empty|].
  change (String a p +:+ s) with (String a (p +:+ s)).
  by rewrite prefix_cons, Ascii.eqb_refl, IH.
Qed.

(** A string without an occurrence of [old] is left as it is. *)
Lemma ReplaceAll_absent (s old new : string) :
  Contains s old = false → ReplaceAll s old new = s.
Proof.
  unfold ReplaceAll. induction s as [|a s IH]; [done|].
  rewrite Contains_cons. intros [Hp Hc]%orb_false_iff.
  cbn [replace_from]. rewrite Hp. by rewrite IH.
Qed.

(** The bytes of an occurrence are stepped over. *)
Lemma replace_from_skip (old new t rest : string) :
  replace_from old new (String.length t) (t +:+ rest) = replace_from old new 0 rest.
Proof.
  induction t as [|a t IH]; [done|].
  change (String a t +:+ rest) with (String a (t +:+ rest)).
  by cbn [String.length replace_from].
Qed.

(** A string without the first byte of [old] does not contain [old]. *)
Lemma Contains_first_byte (s : string) (c : ascii) (o : string) :
  Contains s (String c EmptyString) = false → Contains s (String c o) = false.
Proof.
  induction s as [|a s IH]; [done|].
  rewrite !Contains_cons, !prefix_cons, prefix_empty, andb_true_r.
  intros [Hc Hs]%orb_false_iff. by rewrite Hc, IH.
Qed.

Lemma Contains_byte_app (s t : string) (c : ascii) :
  Contains (s +:+ t) (String c EmptyString)
  = Contains s (String c EmptyString) || Contains t (String c EmptyString).
Proof.
  induction s as [|a s IH].
  - change (EmptyString +:+ t) with t. by destruct t.
  - change (String a s +:+ t) with (String a (s +:+ t)).
    rewrite !Contains_cons, !prefix_cons, !prefix_empty, !andb_true_r, IH.
    by rewrite orb_assoc.
Qed.

(** The one occurrence of [old] in a string whose other bytes differ from
    the first byte of [old] is replaced. *)
Lemma ReplaceAll_one (pre post : string) (c : ascii) (o new : string) :
  Contains pre (String c EmptyString) = false →
  Contains post (String c EmptyString) = false →
  ReplaceAll (pre +:+ String c o +:+ post) (String c o) new = pre +:+ new +:+ post.
Proof.
  intros Hpre Hpost. unfold ReplaceAll. induction pre as [|a pre IH].
  - change (EmptyString +:+ String c o +:+ post) with (String c (o +:+ post)).
    change (EmptyString +:+ new +:+ post) with (new +:+ post).
    cbn [replace_from].
    change (String c (o +:+ post)) with (String c o +:+ post).
    rewrite prefix_refl_app. cbn [String.length Nat.sub]. rewrite Nat.sub_0_r.
    rewrite replace_from_skip.
    fold (ReplaceAll post (String c o) new).
    rewrite ReplaceAll_absent; [done|]. by apply Contains_first_byte.
  - change (String a pre +:+ String c o +:+ post)
      with (String a (pre +:+ String c o +:+ post)).
    change (String a pre +:+ new +:+ post) with (String a (pre +:+ new +:+ post)).
    rewrite Contains_cons, prefix_cons, prefix_empty, andb_true_r in Hpre.
    apply orb_false_iff in Hpre as [Hc Hpre].
    cbn [replace_from]. rewrite prefix_cons, Hc. cbn [andb].
    by rewrite IH.
Qed.

End ReplaceFacts.

Module AdvancedFacts.
Import GoStrings GoStringsFacts RouterInternalsFacts ReplaceFacts.
Import context Router RouteUtilsMore Advanced.

Section WithTrie.
Context {node : Type} {trie : Trie node}.

(** What [Handle] checks includes what [Build] checks. *)
Lemma Handle_Done_checks (r : Router node) (m p : string)
    (h : option HandlerFunc) (mws : list HandlerFunc) (b : Router node) :
  Handle r m p h mws = Done b →
  String.eqb m EmptyString = false ∧ String.eqb p EmptyString = false
  ∧ bad_path p = false ∧ is_Some h.
Proof.
  unfold Handle. destruct (String.eqb m EmptyString); [done|].
  destruct (bad_path p) eqn:Hp; [done|].
  destruct h as [h|]; [|done]. intros _. repeat split; [|done].
  by destruct p.
Qed.

Lemma Handle_Panic_Build (rb : RouteBuilder) (r : AdvancedRouter node) (msg : string) :
  Handle (base r) (method rb) (path rb) (handler rb) (middleware rb) = Panic msg →
  ∃ msg', Build rb r = Panic msg'.
Proof.
  intros Hh. unfold Build.
  destruct (_ || _ || _); [by eexists|].
  cbv zeta. unfold registerAdvancedRoute.
  cbn [Method Path Handler Middleware Name].
  destruct (0 <? size (rb_constraints rb))%nat; cbn [base]; rewrite Hh; by eexists.
Qed.

Lemma Build_Done (rb : RouteBuilder) (r : AdvancedRouter node) (b : Router node) :
  Handle (base r) (method rb) (path rb) (handler rb) (middleware rb) = Done b →
  ∃ cs,
    Build rb r
    = Done (length (routes r),
            mkAdvancedRouter b
              (routes r ++ [mkRouteInfo (method rb) (path rb) (name rb)
                              (handler rb) (middleware rb) ∅ EmptyString])
              (if negb (String.eqb (name rb) EmptyString)
               then Some (<[name rb := length (routes r)]>
                            (default ∅ (namedRoutes r)))
               else namedRoutes r)
              cs).
Proof.
  intros Hh. destruct (Handle_Done_checks _ _ _ _ _ _ Hh) as (Hm & Hp & _ & [h Hsome]).
  unfold Build. rewrite Hm, Hp, Hsome. cbn [orb]. rewrite <- Hsome.
  cbv zeta. unfold registerAdvancedRoute.
  cbn [Method Path Handler Middleware Name].
  destruct (0 <? size (rb_constraints rb))%nat;
    cbn [base routes namedRoutes r_constraints]; rewrite Hh; by eexists.
Qed.

Lemma URL_named (r : AdvancedRouter node) (named : gmap string nat) (n : string)
    (route : nat) (info : RouteInfo) (params : list (string * string)) :
  namedRoutes r = Some named → named !! n = Some route →
  routes r !! route = Some info →
  URL r n params = Done (URL_loop (Path info) params, None).
Proof. intros Hn Hl Hr. unfold URL. by rewrite Hn, Hl, Hr. Qed.

(** After a [Build] with a name, the name resolves to the path. *)
Lemma URL_Build (rb : RouteBuilder) (r r' : AdvancedRouter node) (route : nat)
    (params : list (string * string)) :
  Build rb r = Done (route, r') → name rb ≠ EmptyString →
  URL r' (name rb) params = Done (URL_loop (path rb) params, None).
Proof.
  intros Hb Hn.
  destruct (Handle (base r) (method rb) (path rb) (handler rb) (middleware rb))
    as [b|msg] eqn:Hh.
  - destruct (Build_Done rb r b Hh) as [cs Hd]. rewrite Hd in Hb.
    injection Hb as _ <-.
    apply String.eqb_neq in Hn. rewrite Hn. cbn [negb].
    eapply (URL_named _ _ _ (length (routes r))
              (mkRouteInfo (method rb) (path rb) (name rb) (handler rb)
                 (middleware rb) ∅ EmptyString)); cbn [namedRoutes routes];
      [done | apply lookup_insert_eq | by apply list_lookup_middle].
  - destruct (Handle_Panic_Build rb r msg Hh) as [msg' Hp]. congruence.
Qed.

(** [Build] succeeds exactly when [Handle] accepts the method, the path and
    the handler of the builder on the router as it is.  It then returns the
    router on which [Handle] has registered the route, with one more
    [RouteInfo] at the end of [GetRoutes]: the method, path, name, handler
    and middleware of the builder, and neither its constraints nor its
    subdomain.  When the name is empty the named routes are as before;
    otherwise [URL] without parameters gives the path for the name. *)
Theorem Build_spec (rb : RouteBuilder) (r : AdvancedRouter node) :
  match Handle (base r) (method rb) (path rb) (handler rb) (middleware rb) with
  | Done b =>
      ∃ r', Build rb r = Done (length (routes r), r')
            ∧ base r' = b
            ∧ GetRoutes r'
              = GetRoutes r ++ [mkRouteInfo (method rb) (path rb) (name rb)
                                  (handler rb) (middleware rb) ∅ EmptyString]
            ∧ if String.eqb (name rb) EmptyString
              then GetNamedRoutes r' = GetNamedRoutes r
              else URL r' (name rb) [] = Done (path rb, None)
  | Panic _ => ∃ msg, Build rb r = Panic msg
  end.
Proof.
  destruct (Handle _ _ _ _ _) as [b|msg] eqn:Hh;
    [|by eapply Handle_Panic_Build].
  destruct (Build_Done rb r b Hh) as [cs Hd].
  eexists. split; [exact Hd|]. repeat split.
  destruct (String.eqb (name rb) EmptyString) eqn:Hn; [done|].
  apply String.eqb_neq in Hn.
  by rewrite (URL_Build rb r _ _ [] Hd Hn).
Qed.

(** [Route.Name] adds the new name and leaves the old one in the map: after
    [Build] with a name and [Name(new)] on the route it returned, [URL]
    resolves both names to the path, while the [RouteInfo] carries the new
    name only; the registered handlers are not touched. *)
Theorem Route_Name_keeps_old_name (rb : RouteBuilder) (r r' : AdvancedRouter node)
    (route : nat) (new : string) (params : list (string * string)) :
  Build rb r = Done (route, r') → name rb ≠ EmptyString →
  let r'' := Route_Name route new r' in
  URL r'' (name rb) params = Done (URL_loop (path rb) params, None)
  ∧ URL r'' new params = Done (URL_loop (path rb) params, None)
  ∧ Name <$> GetRoutes r'' !! route = Some new
  ∧ base r'' = base r'.
Proof.
  intros Hb Hn r''.
  destruct (Handle (base r) (method rb) (path rb) (handler rb) (middleware rb))
    as [b|msg] eqn:Hh;
    [|destruct (Handle_Panic_Build rb r msg Hh) as [msg' Hp]; congruence].
  destruct (Build_Done rb r b Hh) as [cs Hd]. rewrite Hd in Hb.
  injection Hb as <- <-.
  apply String.eqb_neq in Hn. subst r''. rewrite Hn. cbn [negb].
  set (r'' := Route_Name _ _ _).
  assert (GetRoutes r'' !! length (routes r)
          = Some (mkRouteInfo (method rb) (path rb) new (handler rb)
                    (middleware rb) ∅ EmptyString)) as Hr.
  { unfold r'', Route_Name, GetRoutes. cbn [routes].
    rewrite list_lookup_alter_eq, list_lookup_middle by done. done. }
  assert (∀ n, n = name rb ∨ n = new →
            URL r'' n params = Done (URL_loop (path rb) params, None)) as Hurl.
  { intros n Hcase.
    eapply (URL_named r'' _ n (length (routes r))
              (mkRouteInfo (method rb) (path rb) new (handler rb)
                 (middleware rb) ∅ EmptyString)); [done| |exact Hr].
    cbn [default from_option id].
    destruct (decide (n = new)) as [->|Hne]; [apply lookup_insert_eq|].
    rewrite lookup_insert_ne by done.
    destruct Hcase as [->|]; [apply lookup_insert_eq | done]. }
  split; [apply Hurl; by left|]. split; [apply Hurl; by right|].
  split; [by rewrite Hr | done].
Qed.

(** [URL] puts the value of a parameter in the place of its placeholder:
    for a named route whose path is [pre + ":" + key + post] with no other
    colon, [URL] with the one parameter [key] gives [pre + value + post]. *)
Theorem URL_substitutes (rb : RouteBuilder) (r r' : AdvancedRouter node)
    (route : nat) (pre key post value : string) :
  Build rb r = Done (route, r') → name rb ≠ EmptyString →
  path rb = pre +:+ ":" +:+ key +:+ post →
  Contains pre ":" = false → Contains post ":" = false →
  URL r' (name rb) [(key, value)] = Done (pre +:+ value +:+ post, None).
Proof.
  intros Hb Hn Hp Hpre Hpost.
  rewrite (URL_Build rb r r' route _ Hb Hn). unfold URL_loop. cbn [foldl fst snd].
  rewrite Hp.
  change (":" +:+ key +:+ post) with (String ":" key +:+ post).
  change (":" +:+ key) with (String ":" key).
  by rewrite ReplaceAll_one.
Qed.

(** The result of [URL] depends on the order in which [range] visits the
    map of parameters when one key extends another: for a route whose path
    is ["/:" + key + more], and the parameters [key] and [key + more], the
    path comes out as ["/" + v1 + more] when [key] is visited first and as
    ["/" + v2] when [key + more] is; the two differ unless [v2] is
    [v1 + more]. *)
Theorem URL_order_dependent (rb : RouteBuilder) (r r' : AdvancedRouter node)
    (route : nat) (key more v1 v2 : string) :
  Build rb r = Done (route, r') → name rb ≠ EmptyString →
  path rb = "/:" +:+ key +:+ more → more ≠ EmptyString →
  Contains more ":" = false → Contains v1 ":" = false → Contains v2 ":" = false →
  v2 ≠ v1 +:+ more →
  URL r' (name rb) [(key, v1); (key +:+ more, v2)]
  = Done ("/" +:+ v1 +:+ more, None)
  ∧ URL r' (name rb) [(key +:+ more, v2); (key, v1)] = Done ("/" +:+ v2, None)
  ∧ URL r' (name rb) [(key, v1); (key +:+ more, v2)]
    ≠ URL r' (name rb) [(key +:+ more, v2); (key, v1)].
Proof.
  intros Hb Hn Hp _ Hmore Hv1 Hv2 Hne.
  cut (URL r' (name rb) [(key, v1); (key +:+ more, v2)]
       = Done ("/" +:+ v1 +:+ more, None)
       ∧ URL r' (name rb) [(key +:+ more, v2); (key, v1)]
         = Done ("/" +:+ v2, None)).
  { intros [H1 H2]. split; [done|]. split; [done|]. rewrite H1, H2.
    change ("/" +:+ v1 +:+ more) with (String "/" (v1 +:+ more)).
    change ("/" +:+ v2) with (String "/" v2). congruence. }
  rewrite !(URL_Build rb r r' route _ Hb Hn). unfold URL_loop. cbn [foldl fst snd].
  rewrite Hp.
  change ("/:" +:+ key +:+ more) with ("/" +:+ String ":" key +:+ more).
  change (":" +:+ key +:+ more) with (String ":" (key +:+ more)).
  change (":" +:+ key) with (String ":" key).
  split.
  - rewrite ReplaceAll_one by done.
    rewrite ReplaceAll_absent; [done|]. apply Contains_first_byte.
    by rewrite !Contains_byte_app, Hv1, Hmore.
  - replace ("/" +:+ String ":" key +:+ more)
      with ("/" +:+ String ":" (key +:+ more) +:+ EmptyString)
      by (by rewrite append_empty_r).
    rewrite ReplaceAll_one by done. rewrite append_empty_r.
    rewrite ReplaceAll_absent; [done|]. apply Contains_first_byte.
    by rewrite !Contains_byte_app, Hv2.
Qed.

End WithTrie.

End AdvancedFacts.

Module AdvancedWitnesses.
Import GoStrings context Router RouteUtilsMore Advanced Table Examples.
Import AdvancedExamples AdvancedFacts.

Lemma Route_Name_keeps_old_name_witness :
  let r'' := Route_Name 0 "user" (built show_user) in
  URL r'' (name show_user) [] = Done (URL_loop (path show_user) [], None)
  ∧ URL r'' "user" [] = Done (URL_loop (path show_user) [], None)
  ∧ Name <$> GetRoutes r'' !! 0%nat = Some "user"
  ∧ base r'' = base (built show_user).
Proof.
  apply (Route_Name_keeps_old_name show_user empty_router (built show_user) 0
           "user" []); [reflexivity | discriminate].
Defined.

Lemma URL_substitutes_witness :
  URL (built show_user) (name show_user) [("id", "42")]
  = Done ("/users/" +:+ "42" +:+ EmptyString, None).
Proof.
  apply (URL_substitutes show_user empty_router (built show_user) 0
           "/users/" "id" EmptyString "42");
    [reflexivity | discriminate | reflexivity | reflexivity | reflexivity].
Defined.

Lemma URL_order_dependent_witness :
  URL (built show_item) (name show_item) [("id", "1"); ("id" +:+ "x", "2")]
  = Done ("/" +:+ "1" +:+ "x", None)
  ∧ URL (built show_item) (name show_item) [("id" +:+ "x", "2"); ("id", "1")]
    = Done ("/" +:+ "2", None)
  ∧ URL (built show_item) (name show_item) [("id", "1"); ("id" +:+ "x", "2")]
    ≠ URL (built show_item) (name show_item) [("id" +:+ "x", "2"); ("id", "1")].
Proof.
  apply (URL_order_dependent show_item empty_router (built show_item) 0
           "id" "x" "1" "2");
    [reflexivity | discriminate | reflexivity | discriminate | reflexivity
    | reflexivity | reflexivity | discriminate].
Defined.

End AdvancedWitnesses.

Module MoreWitnesses.
Import GoStrings context constraints RouterInternals RouteUtilsMore.
Import RouterInternalsFacts PatternFacts constraintsFacts.

Lemma longestCommonPrefix_spec_witness :
  String.get (longestCommonPrefix "/users/:id" "/users/new") "/users/:id"
  ≠ String.get (longestCommonPrefix "/users/:id" "/users/new") "/users/new".
Proof.
  destruct (longestCommonPrefix_spec "/users/:id" "/users/new") as (_ & _ & _ & H).
  apply H; vm_compute; lia.
Defined.

Lemma ParseRoutePattern_spec_witness :
  HasParams (ParseRoutePattern "/users/:id") = true.
Proof.
  destruct (ParseRoutePattern_spec "/users/:id") as (_ & _ & _ & _ & [_ H] & _).
  apply H. exists ":id". split; [|reflexivity].
  change (":id" ∈ [EmptyString; "users"; ":id"]). repeat constructor.
Defined.

Lemma And_Or_Not_witness : Or [IsAlpha; IsNumeric] "42" = true.
Proof.
  destruct (And_Or_Not [IsAlpha; IsNumeric] "42") as (_ & [_ H] & _).
  apply H. exists IsNumeric. split; [repeat constructor | reflexivity].
Defined.

Lemma OneOf_spec_witness : OneOf ["asc"; "desc"] "desc" = true.
Proof. apply (OneOf_spec ["asc"; "desc"] "desc"). repeat constructor. Defined.

End MoreWitnesses.
